(** * hellofresh-tracker: the incremental map view and the history panel

    A shallow embedding of [MapComponent] (the map view controller: the
    initialisation effect, the update effect, its cleanup, [shouldRefitMap],
    [fitMapToPoints] and the recenter handlers, and the hooks that decide
    which render runs them with which closure), of the part of
    [src/app/page.tsx] that maintains and displays the location history, of
    the time helpers and of the re-publishing endpoints.

    Numbers are JavaScript numbers, that is IEEE 754 binary64: they are
    embedded as Rocq's primitive floats, so that [(a + b) / 2] below rounds
    the way the program does. *)

From Stdlib Require Import String.
From Stdlib Require Import List ZArith Bool Lia Floats DecimalString.
Import ListNotations.

Set Warnings "-inexact-float".

(** ** JavaScript array helpers used by the sources *)

Module Js.
Section Array.
Context {A : Type}.

(** [Array.prototype.slice(start)]: a negative [start] counts from the end
    and is clamped at 0, a positive one is clamped at the length. *)
Definition slice (start : Z) (l : list A) : list A :=
  let len := Z.of_nat (length l) in
  let k := if (start <? 0)%Z then Z.max (len + start) 0 else Z.min start len in
  skipn (Z.to_nat k) l.

(** [Array.prototype.some]. *)
Definition some (f : A -> bool) (l : list A) : bool := existsb f l.

(** [Array.prototype.reverse] (on the fresh array a [slice] returns). *)
Definition reverse (l : list A) : list A := rev l.

End Array.
End Js.

(** ** The map library, as far as the component uses it

    The map widget is an external collaborator.  It is modelled as a store:
    a map records its options, its tile layers, its controls, the identifiers
    of the overlays added to it and, in order, the viewport commands it was
    given.  Overlays carry the identifier the library stamps on them, so that
    moving an overlay can be told apart from creating another one.  What the
    surface then shows (projection, animation, tiles) and failures of the
    library itself stay on the library's side of the interface.  In
    particular the library refuses a coordinate that is not a number (NaN)
    with the error 'Invalid LatLng object': the operations below give its
    behaviour on numbers, and what is stated about malformed input is stated
    for numbers. *)

Module L.

Local Open Scope float_scope.

(** A [[lat, lng]] pair. *)
Definition LatLng : Type := (float * float)%type.

Record LatLngBounds : Type := latLngBounds
  { southWest : LatLng; northEast : LatLng }.

Definition south (b : LatLngBounds) : float := fst (southWest b).
Definition west (b : LatLngBounds) : float := snd (southWest b).
Definition north (b : LatLngBounds) : float := fst (northEast b).
Definition east (b : LatLngBounds) : float := snd (northEast b).

(** Modelled from the spec: the map library's point-in-bounds test is not
    part of the repository sources.  The capability interface asks for a test
    of whether a point lies within given bounds in which a point exactly on
    the edge counts as contained: all four comparisons are non-strict. *)
Definition contains (b : LatLngBounds) (p : LatLng) : bool :=
  (south b <=? fst p) && (fst p <=? north b) &&
  (west b <=? snd p) && (snd p <=? east b).

Record DivIcon : Type := divIcon
  { className : string; html : string;
    iconSize : Z * Z; iconAnchor : Z * Z }.

Record Marker : Type := mkMarker
  { marker_id : nat;
    latlng : LatLng;
    icon : DivIcon;
    zIndexOffset : Z;
    popup : option string }.

Record PathOptions : Type := mkPathOptions
  { color : string; weight : Z; opacity : float }.

Record Polyline : Type := mkPolyline
  { polyline_id : nat;
    latlngs : list LatLng;
    style : PathOptions }.

Record TileLayer : Type := tileLayer
  { urlTemplate : string; attribution : string }.

Inductive Control : Type :=
  | ZoomControl (position : string)
  | ScaleControl (position : string).

Record ZoomPanOptions : Type := mkZoomPan
  { animate : bool; duration : float }.

Record FitBoundsOptions : Type := mkFitBounds
  { fit_animate : bool; fit_duration : float;
    maxZoom : Z; padding : Z * Z }.

(** [L.latLngBounds(points).pad(bufferRatio)], kept as the call was made. *)
Record PaddedBounds : Type := pad
  { points : list LatLng; bufferRatio : float }.

Inductive ViewCmd : Type :=
  | SetView (center : LatLng) (zoom : Z) (options : option ZoomPanOptions)
  | FitBounds (bounds : PaddedBounds) (options : FitBoundsOptions).

Inductive HTMLDivElement : Type := Div.

Record Map : Type := mkMap
  { container : HTMLDivElement;
    zoomControl : bool;
    attributionControl : bool;
    tiles : list TileLayer;
    controls : list Control;
    layers : list nat;
    viewLog : list ViewCmd }.

(** [L.map(container, { zoomControl, attributionControl })]. *)
Definition map (el : HTMLDivElement) (zc ac : bool) : Map :=
  mkMap el zc ac [] [] [] [].

Definition issue (cmd : ViewCmd) (m : Map) : Map :=
  mkMap (container m) (zoomControl m) (attributionControl m)
        (tiles m) (controls m) (layers m) (viewLog m ++ [cmd]).

(** [map.setView(center, zoom, options)]. *)
Definition setView (center : LatLng) (zoom : Z) (o : option ZoomPanOptions)
    (m : Map) : Map :=
  issue (SetView center zoom o) m.

(** [map.fitBounds(bounds, options)]. *)
Definition fitBounds (b : PaddedBounds) (o : FitBoundsOptions) (m : Map) : Map :=
  issue (FitBounds b o) m.

(** [tiles.addTo(map)]. *)
Definition addTile (t : TileLayer) (m : Map) : Map :=
  mkMap (container m) (zoomControl m) (attributionControl m)
        (tiles m ++ [t]) (controls m) (layers m) (viewLog m).

(** [control.addTo(map)]. *)
Definition addControl (c : Control) (m : Map) : Map :=
  mkMap (container m) (zoomControl m) (attributionControl m)
        (tiles m) (controls m ++ [c]) (layers m) (viewLog m).

(** [overlay.addTo(map)], by the overlay's identifier. *)
Definition addLayer (id : nat) (m : Map) : Map :=
  mkMap (container m) (zoomControl m) (attributionControl m)
        (tiles m) (controls m) (layers m ++ [id]) (viewLog m).

(** [L.marker(latlng, { icon, zIndexOffset })]. *)
Definition marker (id : nat) (p : LatLng) (i : DivIcon) (z : Z) : Marker :=
  mkMarker id p i z None.

(** [marker.bindPopup(content)]. *)
Definition bindPopup (content : string) (mk : Marker) : Marker :=
  mkMarker (marker_id mk) (latlng mk) (icon mk) (zIndexOffset mk) (Some content).

(** [marker.setLatLng(latlng)], for a pair of numbers: the same marker,
    elsewhere. *)
Definition setLatLng (p : LatLng) (mk : Marker) : Marker :=
  mkMarker (marker_id mk) p (icon mk) (zIndexOffset mk) (popup mk).

(** [marker.getPopup()?.setContent(content)]: nothing without a popup. *)
Definition setPopupContent (content : string) (mk : Marker) : Marker :=
  match popup mk with
  | Some _ => mkMarker (marker_id mk) (latlng mk) (icon mk) (zIndexOffset mk)
                       (Some content)
  | None => mk
  end.

(** [L.polyline(latlngs, options)]. *)
Definition polyline (id : nat) (ps : list LatLng) (o : PathOptions) : Polyline :=
  mkPolyline id ps o.

(** [polyline.setLatLngs(latlngs)]: the same polyline, other points. *)
Definition setLatLngs (ps : list LatLng) (pl : Polyline) : Polyline :=
  mkPolyline (polyline_id pl) ps (style pl).

End L.

(** ** [MapComponent]: the map view controller

    The component keeps its view state in refs and two flags and runs its
    logic from hooks.  Each hook body becomes a function on the [Controller]
    record: [initialize] is the initialisation effect, [dispose] the cleanup
    it returns, [applySnapshot] the update effect; a state setter is a write
    to the record, and the values a body reads from its closure (the props
    and [userLocation]) are the [Snapshot] it is given. *)

Module MapComponent.

Local Open Scope float_scope.
Local Open Scope string_scope.

Record Location : Type := mkLocation { lat : float; lng : float }.

(** [interface CustomerLocation extends Location]. *)
Record CustomerLocation : Type := mkCustomer
  { location :> Location; address : string }.

(** What the effect closures of one render see: the three props, the
    [userLocation] state (the device position, asked for once) and the
    [shouldRefitMap] callback.  That callback is memoised on
    [locationHistory.length], so it may stem from an earlier render; it is
    given by the one thing it reads from its closure, the History of the
    render that created it.  The component's own renders are built in
    [Component] below. *)
Record Snapshot : Type := mkSnapshot
  { driverLocation : Location;
    customerLocation : CustomerLocation;
    locationHistory : list Location;
    userLocation : option Location;
    capturedHistory : list Location }.

(** The render of [s] as its [shouldRefitMap] callback sees it: with the
    History the callback closed over. *)
Definition capturing (s : Snapshot) : Snapshot :=
  mkSnapshot (driverLocation s) (customerLocation s) (capturedHistory s)
    (userLocation s) (capturedHistory s).

(** The refs and the two flags of the component.  [lastId] is the library's
    stamp counter: the identifier of the overlay created last. *)
Record Controller : Type := mkController
  { mapRef : option L.HTMLDivElement;
    mapInstanceRef : option L.Map;
    driverMarkerRef : option L.Marker;
    customerMarkerRef : option L.Marker;
    userMarkerRef : option L.Marker;
    pathRef : option L.Polyline;
    mapReady : bool;
    isInitialized : bool;
    lastId : nat }.

(** The error taxonomy of the controller's contract.  The component's own
    code has no [throw]: every body below completes with [Returned]. *)
Inductive ControllerError : Type :=
  | PreconditionViolation
  | MalformedCoordinate.

Inductive Completion : Type :=
  | Returned
  | Thrown (e : ControllerError).

Definition Effect : Type := Controller -> Completion * Controller.

(** The component once its container is attached and before any effect ran. *)
Definition mounted : Controller :=
  mkController (Some L.Div) None None None None None false false 0.

Definition coords (p : Location) : L.LatLng := (lat p, lng p).

Definition osmTiles : L.TileLayer :=
  L.tileLayer "https://{s}.tile.openstreetmap.org/{z}/{x}/{y}.png"
              "© OpenStreetMap contributors".

Definition driverIcon : L.DivIcon :=
  L.divIcon "driver-marker" "🚗" (30, 30)%Z (15, 15)%Z.

Definition customerIcon : L.DivIcon :=
  L.divIcon "customer-marker" "🏠" (30, 30)%Z (15, 15)%Z.

Definition userIcon : L.DivIcon :=
  L.divIcon "user-marker" "📍" (25, 25)%Z (12, 12)%Z.

Definition pathStyle : L.PathOptions := L.mkPathOptions "blue" 3 0.7.

Definition customerPopup (customer : CustomerLocation) : string :=
  "🏠 Delivery Address<br><strong>" ++ address customer ++ "</strong>".

(** The point set [fitMapToPoints] assembles: driver, customer, the history,
    then the user location when there is one. *)
Definition allPoints (history : list Location) (driver : Location)
    (customer : CustomerLocation) (user : option Location) : list L.LatLng :=
  [coords driver; coords customer]
    ++ List.map coords history
    ++ match user with Some u => [coords u] | None => [] end.

(** [fitMapToPoints(map, history, driver, customer, user)]; the result is the
    map handle after the call. *)
Definition fitMapToPoints (map : option L.Map) (history : list Location)
    (driver : Location) (customer : CustomerLocation) (user : option Location)
    : option L.Map :=
  match map with
  | None => None
  | Some m =>
    let pts := allPoints history driver customer user in
    if (1 <? length pts)%nat then
      let paddedBounds := L.pad pts 0.1 in
      Some (L.fitBounds paddedBounds (L.mkFitBounds true 0.5 18 (20, 20)%Z) m)
    else
      Some (L.setView (coords driver) 15 (Some (L.mkZoomPan true 0.5)) m)
  end.

(** The initialisation effect, run with the closure [s] on the controller
    [c], whose flags stand for the state that closure saw.  Its dependency
    array is empty: the component runs it at mount, with the closure of the
    first render (see [Component.mount]). *)
Definition initialize (s : Snapshot) : Effect := fun c =>
  match mapRef c with
  | None => (Returned, c)
  | Some el =>
    if isInitialized c then (Returned, c) else
    let driver := driverLocation s in
    let customer := customerLocation s in
    let history := locationHistory s in
    let centerLat := (lat driver + lat customer) / 2 in
    let centerLng := (lng driver + lng customer) / 2 in
    let map0 := L.setView (centerLat, centerLng) 13 None (L.map el false true) in
    let map1 := L.addTile osmTiles map0 in
    let map2 := L.addControl (L.ZoomControl "topright") map1 in
    let map3 := L.addControl (L.ScaleControl "bottomleft") map2 in
    let id1 := S (lastId c) in
    let driverMarker :=
      L.bindPopup "🚗 Driver Location"
        (L.marker id1 (coords driver) driverIcon 1000) in
    let map4 := L.addLayer id1 map3 in
    let id2 := S id1 in
    let customerMarker :=
      L.bindPopup (customerPopup customer)
        (L.marker id2 (coords customer) customerIcon 999) in
    let map5 := L.addLayer id2 map4 in
    let '(userMarker, map6, id3) :=
      match userLocation s with
      | Some u =>
        let id := S id2 in
        (Some (L.bindPopup "📍 Your Location" (L.marker id (coords u) userIcon 998)),
         L.addLayer id map5, id)
      | None => (userMarkerRef c, map5, id2)
      end in
    let '(path, map7, id4) :=
      if (1 <? length history)%nat then
        let id := S id3 in
        (Some (L.polyline id (List.map coords history) pathStyle),
         L.addLayer id map6, id)
      else (pathRef c, map6, id3) in
    (Returned,
     mkController (mapRef c)
       (fitMapToPoints (Some map7) history driver customer (userLocation s))
       (Some driverMarker) (Some customerMarker) userMarker path
       true true id4)
  end.

(** The cleanup the initialisation effect returns: the teardown. *)
Definition dispose (c : Controller) : Controller :=
  let mapInstance :=
    match mapInstanceRef c with
    | Some _ => None
    | None => mapInstanceRef c
    end in
  mkController (mapRef c) mapInstance
    (driverMarkerRef c) (customerMarkerRef c) (userMarkerRef c) (pathRef c)
    false false (lastId c).

Section Surface.

(** What the surface shows after the viewport commands it was given; only
    the map library knows. *)
Variable visibleBounds : list L.ViewCmd -> L.LatLngBounds.

(** [map.getBounds()]. *)
Definition getBounds (m : L.Map) : L.LatLngBounds := visibleBounds (L.viewLog m).

(** [shouldRefitMap()], as created by the render [s]: the History it reads
    is the one of that render. *)
Definition shouldRefitMap (s : Snapshot) (c : Controller) : bool :=
  match mapInstanceRef c with
  | None => false
  | Some m =>
    if (length (locationHistory s) <? 2)%nat then false else
    let currentBounds := getBounds m in
    let newPoints := Js.slice (-3) (locationHistory s) in
    Js.some (fun point => negb (L.contains currentBounds (coords point))) newPoints
  end.

(** The re-fit check as the update effect of the render [s] makes it:
    through the memoised callback that render holds. *)
Definition shouldRefit (s : Snapshot) (c : Controller) : bool :=
  shouldRefitMap (capturing s) c.

(** The update effect, run by the render [s].  The flags it tests are those
    of the controller it is run on, which stand for the state that render
    saw. *)
Definition applySnapshot (s : Snapshot) : Effect := fun c =>
  match mapInstanceRef c with
  | None => (Returned, c)
  | Some m =>
    if negb (isInitialized c) then (Returned, c) else
    let driver := driverLocation s in
    let customer := customerLocation s in
    let history := locationHistory s in
    let driverMarker := option_map (L.setLatLng (coords driver)) (driverMarkerRef c) in
    let customerMarker :=
      option_map
        (fun mk => L.setPopupContent (customerPopup customer)
                     (L.setLatLng (coords customer) mk))
        (customerMarkerRef c) in
    let userMarker :=
      match userLocation s, userMarkerRef c with
      | Some u, Some mk => Some (L.setLatLng (coords u) mk)
      | _, r => r
      end in
    let '(path, m1, id) :=
      if (1 <? length history)%nat then
        let pathCoords := List.map coords history in
        match pathRef c with
        | Some pl => (Some (L.setLatLngs pathCoords pl), m, lastId c)
        | None =>
          let id := S (lastId c) in
          (Some (L.polyline id pathCoords pathStyle), L.addLayer id m, id)
        end
      else (pathRef c, m, lastId c) in
    let c1 :=
      mkController (mapRef c) (Some m1) driverMarker customerMarker userMarker
        path (mapReady c) (isInitialized c) id in
    if (1 <? length history)%nat then
      if shouldRefit s c1 then
        (Returned,
         mkController (mapRef c1)
           (fitMapToPoints (mapInstanceRef c1) history driver customer
              (userLocation s))
           (driverMarkerRef c1) (customerMarkerRef c1) (userMarkerRef c1)
           (pathRef c1) (mapReady c1) (isInitialized c1) (lastId c1))
      else (Returned, c1)
    else (Returned, c1)
  end.

End Surface.

Definition withMap (f : L.Map -> L.Map) (c : Controller) : Controller :=
  mkController (mapRef c) (option_map f (mapInstanceRef c))
    (driverMarkerRef c) (customerMarkerRef c) (userMarkerRef c) (pathRef c)
    (mapReady c) (isInitialized c) (lastId c).

(** [handleFitToPoints]. *)
Definition handleFitToPoints (s : Snapshot) : Effect := fun c =>
  match mapInstanceRef c with
  | Some m =>
    (Returned,
     mkController (mapRef c)
       (fitMapToPoints (Some m) (locationHistory s) (driverLocation s)
          (customerLocation s) (userLocation s))
       (driverMarkerRef c) (customerMarkerRef c) (userMarkerRef c) (pathRef c)
       (mapReady c) (isInitialized c) (lastId c))
  | None => (Returned, c)
  end.

(** [handleCenterOnDriver]. *)
Definition handleCenterOnDriver (s : Snapshot) : Effect := fun c =>
  match mapInstanceRef c with
  | Some _ =>
    (Returned,
     withMap (L.setView (coords (driverLocation s)) 16
                (Some (L.mkZoomPan true 0.5))) c)
  | None => (Returned, c)
  end.

(** [handleCenterOnCustomer]. *)
Definition handleCenterOnCustomer (s : Snapshot) : Effect := fun c =>
  match mapInstanceRef c with
  | Some _ =>
    (Returned,
     withMap (L.setView (coords (customerLocation s)) 16
                (Some (L.mkZoomPan true 0.5))) c)
  | None => (Returned, c)
  end.

(** [handleCenterOnUser]. *)
Definition handleCenterOnUser (s : Snapshot) : Effect := fun c =>
  match mapInstanceRef c, userLocation s with
  | Some _, Some u =>
    (Returned,
     withMap (L.setView (coords u) 16 (Some (L.mkZoomPan true 0.5))) c)
  | _, _ => (Returned, c)
  end.

End MapComponent.

(** ** [Home] (src/app/page.tsx): the location history *)

Module Page.

Local Open Scope string_scope.

Record DriverLocation : Type := mkDriverLocation
  { latitude : float; longitude : float }.

Record DeliveryLocation : Type := mkDeliveryLocation
  { c_latitude : float; c_longitude : float; c_address : string }.

(** [interface HelloFreshData]; a field the response lacks is [None]. *)
Record HelloFreshData : Type := mkData
  { driverLocation : option DriverLocation;
    customerLocation : option DeliveryLocation }.

(** What [response.json()] gives: a rejection with its message, or the data. *)
Inductive Body : Type :=
  | Unparsable (message : string)
  | Json (data : HelloFreshData).

(** What [fetch] gives: a rejection with its message, or a response. *)
Inductive FetchResult : Type :=
  | Rejected (message : string)
  | Response (ok : bool) (status : Z) (body : Body).

(** A [Date], as milliseconds since the epoch. *)
Definition Date : Type := Z.

Record HistoryEntry : Type := mkEntry
  { lat : float; lng : float; timestamp : Date }.

Record State : Type := mkState
  { driver : option MapComponent.Location;
    customer : option MapComponent.CustomerLocation;
    locationHistory : list HistoryEntry;
    isLoading : bool;
    error : option string }.

Definition initial : State := mkState None None [] true None.

(** The state after the [catch] and [finally] blocks. *)
Definition failed (message : string) (st : State) : State :=
  mkState (driver st) (customer st) (locationHistory st) false (Some message).

(** [fetchHelloFreshData] up to its first [await]: [setIsLoading(true)] and
    [setError(null)]; the request is out. *)
Definition start (st : State) : State :=
  mkState (driver st) (customer st) (locationHistory st) true None.

(** [fetchHelloFreshData] from the moment the request comes back, given
    what it came back with and the clock reading of [new Date()].  Another
    request may have started or ended in between: [st] is the state then. *)
Definition settle (r : FetchResult) (now : Date) (st : State) : State :=
  match r with
  | Rejected message => failed message st
  | Response false status _ =>
    failed ("HTTP error! status: " ++ NilZero.string_of_int (Z.to_int status)) st
  | Response true _ (Unparsable message) => failed message st
  | Response true _ (Json data) =>
    match driverLocation data, customerLocation data with
    | Some d, Some c =>
      let newDriverLocation :=
        MapComponent.mkLocation (latitude d) (longitude d) in
      let newCustomerLocation :=
        MapComponent.mkCustomer
          (MapComponent.mkLocation (c_latitude c) (c_longitude c))
          (c_address c) in
      mkState (Some newDriverLocation) (Some newCustomerLocation)
        (locationHistory st
           ++ [mkEntry (MapComponent.lat newDriverLocation)
                       (MapComponent.lng newDriverLocation) now])
        false (error st)
    | _, _ => failed "Driver or customer location not found in response" st
    end
  end.

(** [fetchHelloFreshData] from start to end, no other request in between. *)
Definition fetchHelloFreshData (r : FetchResult) (now : Date) (st : State)
    : State :=
  settle r now (start st).

(** The entries the history panel renders, top to bottom. *)
Definition historyPanel (st : State) : list HistoryEntry :=
  Js.reverse (Js.slice (-10) (locationHistory st)).

(** The [locationHistory] prop handed to the map. *)
Definition mapHistory (st : State) : list MapComponent.Location :=
  List.map (fun loc => MapComponent.mkLocation (lat loc) (lng loc))
    (locationHistory st).

(** A run of fetches, oldest first, each with its clock reading. *)
Definition poll (rs : list (FetchResult * Date)) (st : State) : State :=
  fold_left (fun st r => fetchHelloFreshData (fst r) (snd r) st) rs st.

(** A fetch that succeeds: an ok response carrying both locations. *)
Definition successful (r : FetchResult) : bool :=
  match r with
  | Response true _ (Json data) =>
    match driverLocation data, customerLocation data with
    | Some _, Some _ => true
    | _, _ => false
    end
  | _ => false
  end.

End Page.

(** ** The vocabulary of the controller's contract *)

Module Contract.

Import MapComponent.
Local Open Scope float_scope.

(** A coordinate within the latitude and longitude ranges. *)
Definition validCoordinate (p : Location) : bool :=
  (-90 <=? lat p) && (lat p <=? 90) && (-180 <=? lng p) && (lng p <=? 180).

Definition validSnapshot (s : Snapshot) : bool :=
  validCoordinate (driverLocation s)
  && validCoordinate (customerLocation s)
  && forallb validCoordinate (locationHistory s)
  && match userLocation s with
     | Some u => validCoordinate u
     | None => true
     end.

(** The last [n] elements of a sequence (all of it when it is shorter). *)
Definition lastPoints {A : Type} (n : nat) (h : list A) : list A :=
  skipn (length h - n) h.

(** Bounds whose south-west corner is south-west of the north-east one. *)
Definition wellFormed (b : L.LatLngBounds) : Prop :=
  (L.south b <=? L.north b) = true /\ (L.west b <=? L.east b) = true.

(** A point of the edge of [b]: on one of the four sides, within the span
    of that side. *)
Definition onEdge (b : L.LatLngBounds) (p : L.LatLng) : Prop :=
  ((fst p = L.south b \/ fst p = L.north b)
   /\ (L.west b <=? snd p) = true /\ (snd p <=? L.east b) = true)
  \/
  ((snd p = L.west b \/ snd p = L.east b)
   /\ (L.south b <=? fst p) = true /\ (fst p <=? L.north b) = true).

(** An initialised, live controller. *)
Definition live (c : Controller) : Prop :=
  mapInstanceRef c <> None /\ isInitialized c = true.

(** A mounted controller no effect has touched yet. *)
Definition pristine (c : Controller) : Prop :=
  mapRef c <> None /\ isInitialized c = false /\ pathRef c = None.

(** The update effect over a sequence of snapshots, oldest first. *)
Definition run (visibleBounds : list L.ViewCmd -> L.LatLngBounds)
    (ss : list Snapshot) (c : Controller) : Controller :=
  fold_left (fun c s => snd (applySnapshot visibleBounds s c)) ss c.

(** A surface that always shows the same box over Vancouver. *)
Definition vancouver : list L.ViewCmd -> L.LatLngBounds :=
  fun _ => L.latLngBounds (49.2, -123.2) (49.35, -123.05).

Definition at_ (la lo : float) : Location := mkLocation la lo.

(** Scenario A: no history, no user location. *)
Definition scenarioA : Snapshot :=
  mkSnapshot (at_ 49.28 (-123.12))
             (mkCustomer (at_ 49.30 (-123.10)) "1 Main St")
             [] None [].

(** One history point, far outside that box. *)
Definition onePointAway : Snapshot :=
  mkSnapshot (at_ 60 0)
             (mkCustomer (at_ 49.30 (-123.10)) "1 Main St")
             [at_ 60 0] None [at_ 60 0].

(** Scenario B: three points in view, then a fourth far away. *)
Definition scenarioB : Snapshot :=
  mkSnapshot (at_ 49.40 (-123.00))
             (mkCustomer (at_ 49.30 (-123.10)) "1 Main St")
             [at_ 49.28 (-123.12); at_ 49.281 (-123.119);
              at_ 49.282 (-123.118); at_ 49.40 (-123.00)]
             None
             [at_ 49.28 (-123.12); at_ 49.281 (-123.119);
              at_ 49.282 (-123.118); at_ 49.40 (-123.00)].

(** Scenario C: a driver latitude of 200. *)
Definition scenarioC : Snapshot :=
  mkSnapshot (at_ 200 (-123.12))
             (mkCustomer (at_ 49.30 (-123.10)) "1 Main St")
             [] None [].

(** A response that carries both locations, and one without the driver. *)
Definition delivering : Page.FetchResult :=
  Page.Response true 200
    (Page.Json
       (Page.mkData
          (Some (Page.mkDriverLocation 49.28 (-123.12)))
          (Some (Page.mkDeliveryLocation 49.30 (-123.10) "1 Main St")))).

Definition driverless : Page.FetchResult :=
  Page.Response true 200
    (Page.Json
       (Page.mkData None
          (Some (Page.mkDeliveryLocation 49.30 (-123.10) "1 Main St")))).

End Contract.

(** ** The overlays a controller holds *)

Module View.

Import MapComponent.

Definition markerIds (r : option L.Marker) : list nat :=
  match r with
  | Some mk => [L.marker_id mk]
  | None => []
  end.

Definition pathIds (r : option L.Polyline) : list nat :=
  match r with
  | Some pl => [L.polyline_id pl]
  | None => []
  end.

(** The identifiers of the overlays the four refs hold: driver, customer,
    user, path. *)
Definition overlayIds (c : Controller) : list nat :=
  markerIds (driverMarkerRef c) ++ markerIds (customerMarkerRef c)
    ++ markerIds (userMarkerRef c) ++ pathIds (pathRef c).

(** A mounted controller that holds no user and no path overlay and is not
    initialised. *)
Definition untouched (c : Controller) : Prop :=
  mapRef c <> None /\ isInitialized c = false
  /\ userMarkerRef c = None /\ pathRef c = None.

(** The refs and the map agree: the controller is live, holds the two
    mandatory markers, the layers of its map are exactly the overlays its
    refs hold, each once, and none is newer than the stamp counter. *)
Definition coherent (c : Controller) : Prop :=
  isInitialized c = true
  /\ driverMarkerRef c <> None
  /\ customerMarkerRef c <> None
  /\ (exists m, mapInstanceRef c = Some m /\ L.layers m = overlayIds c)
  /\ NoDup (overlayIds c)
  /\ Forall (fun id => id <= lastId c) (overlayIds c).

(** The same overlays, flags and stamp counter, and the same layers, tiles
    and controls on the map: two controllers that differ at most in the
    viewport commands their maps were given. *)
Definition sameOverlays (c c' : Controller) : Prop :=
  mapRef c' = mapRef c
  /\ driverMarkerRef c' = driverMarkerRef c
  /\ customerMarkerRef c' = customerMarkerRef c
  /\ userMarkerRef c' = userMarkerRef c
  /\ pathRef c' = pathRef c
  /\ mapReady c' = mapReady c
  /\ isInitialized c' = isInitialized c
  /\ lastId c' = lastId c
  /\ option_map L.layers (mapInstanceRef c')
     = option_map L.layers (mapInstanceRef c)
  /\ option_map L.tiles (mapInstanceRef c')
     = option_map L.tiles (mapInstanceRef c)
  /\ option_map L.controls (mapInstanceRef c')
     = option_map L.controls (mapInstanceRef c).

(** The viewport command of [fitMapToPoints] for a snapshot. *)
Definition fitCommand (s : Snapshot) : L.ViewCmd :=
  L.FitBounds
    (L.pad (allPoints (locationHistory s) (driverLocation s)
              (customerLocation s) (userLocation s)) 0.1%float)
    (L.mkFitBounds true 0.5%float 18 (20, 20)%Z).

(** The viewport command of a manual recenter on [p]. *)
Definition centreCommand (p : Location) : L.ViewCmd :=
  L.SetView (coords p) 16 (Some (L.mkZoomPan true 0.5%float)).

End View.

(** ** What [Home] renders, and the request in flight *)

Module PageView.

Import Page.

(** JavaScript truthiness of the [error] state, a string or [null]. *)
Definition truthy (e : option string) : bool :=
  match e with
  | Some EmptyString => false
  | Some _ => true
  | None => false
  end.

(** Whether the map is rendered rather than its placeholder:
    [driverLocation && customerLocation && !isLoading && !error]. *)
Definition showsMap (st : State) : bool :=
  match driver st, customer st with
  | Some _, Some _ => negb (isLoading st) && negb (truthy (error st))
  | _, _ => false
  end.

(** The text shown in place of the map. *)
Definition placeholder (st : State) : string :=
  if isLoading st then "Loading map..."
  else if truthy (error st) then "Error loading map"
  else "No delivery data".

(** The history entry a fetch records, if any. *)
Definition recorded (r : FetchResult * Date) : list HistoryEntry :=
  match fst r with
  | Response true _ (Json data) =>
    match driverLocation data, customerLocation data with
    | Some d, Some _ => [mkEntry (latitude d) (longitude d) (snd r)]
    | _, _ => []
    end
  | _ => []
  end.

(** The driver position and the history agree: both empty, or the history
    ends with the position of the driver, and the customer is known. *)
Definition inStep (st : State) : Prop :=
  (driver st = None /\ customer st = None /\ locationHistory st = [])
  \/ (exists d c older e,
        driver st = Some d /\ customer st = Some c
        /\ locationHistory st = older ++ [e]
        /\ lat e = MapComponent.lat d /\ lng e = MapComponent.lng d).

End PageView.

(** ** Time helpers (timeUtils)

    A [Date] built from a string either is invalid ([getTime()] is NaN) or
    has a time value, an integral number of milliseconds at most 8.64e15
    from the epoch; the helpers below subtract, divide and floor such
    values in binary64.  That is the integer arithmetic written here as
    long as the two instants are less than 2^53 ms apart ([withinDouble]);
    beyond, the subtraction rounds, and what is stated about the wording of
    [getRelativeTime] is stated within that bound.  Parsing the string and
    reading the clock are inputs. *)

Module TimeUtils.

Local Open Scope string_scope.
Local Open Scope Z_scope.

(** A number in a template literal. *)
Definition show (n : Z) : string := NilZero.string_of_int (Z.to_int n).

(** [n !== 1 ? 's' : '']. *)
Definition plural (n : Z) : string := if n =? 1 then "" else "s".

Inductive TimeStatus : Type := past | present | future.

(** Two time values whose difference binary64 holds exactly. *)
Definition withinDouble (date now : Z) : Prop :=
  Z.abs date <= 8640000000000000
  /\ Z.abs now <= 8640000000000000
  /\ Z.abs (date - now) < 2 ^ 53.

Section Clock.

(** [new Date(isoString).getTime()], [None] standing for NaN. *)
Variable parse : string -> option Z.

(** [getRelativeTime(isoString)], with the reading of [new Date()]. *)
Definition getRelativeTime (isoString : string) (now : Z) : string :=
  match parse isoString with
  | None => "Invalid date"
  | Some date =>
    let diffInMs := date - now in
    let diffInMinutes := diffInMs / (1000 * 60) in
    let diffInHours := diffInMs / (1000 * 60 * 60) in
    let diffInDays := diffInMs / (1000 * 60 * 60 * 24) in
    if diffInMs <? 0 then
      if Z.abs diffInDays >? 0 then
        show (Z.abs diffInDays) ++ " day" ++ plural (Z.abs diffInDays) ++ " ago"
      else if Z.abs diffInHours >? 0 then
        show (Z.abs diffInHours) ++ " hour" ++ plural (Z.abs diffInHours)
          ++ " ago"
      else
        show (Z.abs diffInMinutes) ++ " minute" ++ plural (Z.abs diffInMinutes)
          ++ " ago"
    else
      if diffInDays >? 0 then
        "in " ++ show diffInDays ++ " day" ++ plural diffInDays
      else if diffInHours >? 0 then
        "in " ++ show diffInHours ++ " hour" ++ plural diffInHours
      else
        "in " ++ show diffInMinutes ++ " minute" ++ plural diffInMinutes
  end.

(** [isTimeInPast(isoString)]. *)
Definition isTimeInPast (isoString : string) (now : Z) : bool :=
  match parse isoString with
  | None => false
  | Some date => date <? now
  end.

(** [getTimeStatus(isoString)]. *)
Definition getTimeStatus (isoString : string) (now : Z) : TimeStatus :=
  match parse isoString with
  | None => present
  | Some date =>
    let diffInMs := Z.abs (date - now) in
    let diffInMinutes := diffInMs / (1000 * 60) in
    if diffInMinutes <=? 5 then present
    else if date <? now then past
    else future
  end.

End Clock.

(** A parser for examples: it knows two instants by name. *)
Definition sampleParse (isoString : string) : option Z :=
  if String.eqb isoString "2025-01-01T00:00:00.000Z" then Some 1735689600000
  else if String.eqb isoString "2025-01-01T00:00:00.001Z"
       then Some 1735689600001
  else None.

End TimeUtils.

(** ** The re-publishing endpoints (webhook, poll, stream)

    The upstream answer is untyped JSON; the handlers only ask whether its
    [driverLocation] is truthy.  Replies keep their fields as data; the
    rendering of the time stamp ([toISOString]) and of the body
    ([JSON.stringify]) is the platform's. *)

Set Warnings "-register-all".

Module Json.

Inductive value : Type :=
  | Null
  | Bool (b : bool)
  | Num (x : float)
  | Str (s : string)
  | Arr (items : list value)
  | Obj (fields : list (string * value)).

(** JavaScript truthiness of a parsed value. *)
Definition truthy (v : value) : bool :=
  match v with
  | Null => false
  | Bool b => b
  | Num x => negb (PrimFloat.eqb x 0 || PrimFloat.is_nan x)
  | Str s => negb (String.eqb s "")
  | Arr _ => true
  | Obj _ => true
  end.

(** The property [key] of a parsed object, whose keys are distinct. *)
Fixpoint lookup (key : string) (fields : list (string * value))
    : option value :=
  match fields with
  | [] => None
  | (k, v) :: rest => if String.eqb k key then Some v else lookup key rest
  end.

(** Reading [data.driverLocation]: a TypeError on [null], [undefined] on a
    value without that property. *)
Inductive Access : Type :=
  | Throws
  | Undefined
  | Found (v : value).

Definition driverLocationOf (data : value) : Access :=
  match data with
  | Null => Throws
  | Obj fields =>
    match lookup "driverLocation" fields with
    | Some v => Found v
    | None => Undefined
    end
  | _ => Undefined
  end.

End Json.

Module Routes.

Local Open Scope string_scope.

(** What [response.json()] gives. *)
Inductive Body : Type :=
  | Unparsable (message : string)
  | Parsed (data : Json.value).

(** What [fetch] gives. *)
Inductive Upstream : Type :=
  | Rejected (message : string)
  | Response (ok : bool) (status : Z) (body : Body).

(** The object handed to [NextResponse.json] or to [JSON.stringify]. *)
Inductive Payload : Type :=
  | Retrieved (data driverLocation : Json.value) (timestamp : Page.Date)
      (message endpoint : option string)
  | Failed (error : string) (timestamp : Page.Date) (endpoint : option string).

Definition success (p : Payload) : bool :=
  match p with
  | Retrieved _ _ _ _ _ => true
  | Failed _ _ _ => false
  end.

Record NextResponse : Type := mkResponse { status : Z; json : Payload }.

(** A server-sent event as the stream enqueues it. *)
Record Event : Type := mkEvent { event : string; data : Payload }.

Definition httpError (status : Z) : string :=
  "HTTP error! status: " ++ NilZero.string_of_int (Z.to_int status).

Definition noDriver : string := "No driver location found in response".

Definition retrievedMessage : string :=
  "HelloFresh driver location retrieved successfully".

Section Engine.

(** The message of the TypeError raised by reading a property of [null]. *)
Variable nullAccess : string.

(** [POST] of the webhook route. *)
Definition webhookPOST (r : Upstream) (now : Page.Date) : NextResponse :=
  let failed message := mkResponse 500 (Failed message now None) in
  match r with
  | Rejected message => failed message
  | Response false status _ => failed (httpError status)
  | Response true _ (Unparsable message) => failed message
  | Response true _ (Parsed data) =>
    match Json.driverLocationOf data with
    | Json.Throws => failed nullAccess
    | Json.Undefined => failed noDriver
    | Json.Found v =>
      if Json.truthy v then
        mkResponse 200 (Retrieved data v now (Some retrievedMessage) None)
      else failed noDriver
    end
  end.


(** [sendData] of the stream route: the events one tick enqueues. *)
Definition sendData (r : Upstream) (now : Page.Date) : list Event :=
  let failed message := [mkEvent "error" (Failed message now None)] in
  match r with
  | Rejected message => failed message
  | Response false _ _ => []
  | Response true _ (Unparsable message) => failed message
  | Response true _ (Parsed data) =>
    match Json.driverLocationOf data with
    | Json.Throws => failed nullAccess
    | Json.Undefined => failed noDriver
    | Json.Found v =>
      if Json.truthy v then
        [mkEvent "hellofresh-update" (Retrieved data v now None None)]
      else failed noDriver
    end
  end.

(** The events of a stream over its ticks, the first one at once. *)
Definition stream (ticks : list (Upstream * Page.Date)) : list Event :=
  flat_map (fun t => sendData (fst t) (snd t)) ticks.

End Engine.

(** The upstream answer carries a truthy [driverLocation]. *)
Definition hasDriver (r : Upstream) : bool :=
  match r with
  | Response true _ (Parsed data) =>
    match Json.driverLocationOf data with
    | Json.Found v => Json.truthy v
    | _ => false
    end
  | _ => false
  end.

(** The upstream answered, with a status outside 200-299. *)
Definition refused (r : Upstream) : bool :=
  match r with
  | Response false _ _ => true
  | _ => false
  end.



End Routes.

(** ** Sample inputs *)

Module Samples.

Import MapComponent Contract.

(** Scenario B seen from a device whose position is known. *)
Definition withUser : Snapshot :=
  mkSnapshot (driverLocation scenarioB) (customerLocation scenarioB)
    (locationHistory scenarioB) (Some (at_ 49.25 (-123.15)))
    (capturedHistory scenarioB).

(** Another driver, customer and older history, ending in the same three
    points as scenario B. *)
Definition sameTail : Snapshot :=
  mkSnapshot (at_ 10 10)
             (mkCustomer (at_ 20 20) "2 Side St")
             [at_ 1 1; at_ 2 2; at_ 49.281 (-123.119);
              at_ 49.282 (-123.118); at_ 49.40 (-123.00)]
             (Some (at_ 30 30))
             [at_ 1 1; at_ 2 2; at_ 49.281 (-123.119);
              at_ 49.282 (-123.118); at_ 49.40 (-123.00)].

(** Scenario B's customer with another driver and another History of 4
    points, all of them in view. *)
Definition replaced : Snapshot :=
  mkSnapshot (at_ 49.283 (-123.117)) (customerLocation scenarioB)
    [at_ 49.28 (-123.12); at_ 49.281 (-123.119); at_ 49.282 (-123.118);
     at_ 49.283 (-123.117)]
    None
    [at_ 49.28 (-123.12); at_ 49.281 (-123.119); at_ 49.282 (-123.118);
     at_ 49.283 (-123.117)].

(** An upstream answer with status 503. *)
Definition unavailable : Routes.Upstream :=
  Routes.Response false 503 (Routes.Unparsable "Service Unavailable").

Definition newYear : string := "2025-01-01T00:00:00.000Z".

Definition justAfterNewYear : string := "2025-01-01T00:00:00.001Z".

End Samples.

(** ** The component's hooks: which render runs which effect

    [MapComponent] is a function component.  A render hands each hook a new
    closure over its props and state; React then keeps or replaces the
    memoised [shouldRefitMap] callback (dependency [locationHistory.length])
    and runs the update effect only when one of its dependencies (the four
    coordinates of driver and customer and [locationHistory.length]) has
    changed, comparing with [Object.is].  The initialisation effect has no
    dependencies: it runs at mount, with the closure of the first render,
    in which [userLocation] is still [null] and [isInitialized] is false. *)

Module Component.

Import MapComponent.

(** [interface MapComponentProps]. *)
Record Props : Type := mkProps
  { driver : Location;
    customer : CustomerLocation;
    history : list Location }.

(** The dependency array of the update effect. *)
Definition Deps : Type := (float * float * float * float * nat)%type.

Definition depsOf (p : Props) : Deps :=
  (lat (driver p), lng (driver p), lat (customer p), lng (customer p),
   length (history p)).

(** [Object.is], entry by entry. *)
Definition sameDeps (a b : Deps) : bool :=
  let '(a1, a2, a3, a4, an) := a in
  let '(b1, b2, b3, b4, bn) := b in
  PrimFloat.Leibniz.eqb a1 b1 && PrimFloat.Leibniz.eqb a2 b2
  && PrimFloat.Leibniz.eqb a3 b3 && PrimFloat.Leibniz.eqb a4 b4
  && Nat.eqb an bn.

(** A mounted component between two renders: its refs and flags, the
    [userLocation] state, the History its [shouldRefitMap] callback closed
    over, and the dependencies of its last render. *)
Record Instance : Type := mkInstance
  { view : Controller;
    deviceLocation : option Location;
    captured : list Location;
    deps : Deps }.

(** The closure of the first render. *)
Definition firstRender (p : Props) : Snapshot :=
  mkSnapshot (driver p) (customer p) (history p) None (history p).

(** The closure of a later render with the props [p]: [useCallback] keeps
    the callback while the History length is the same. *)
Definition closure (p : Props) (k : Instance) : Snapshot :=
  mkSnapshot (driver p) (customer p) (history p) (deviceLocation k)
    (if length (history p) =? length (captured k)
     then captured k
     else history p).

Definition withInitialized (b : bool) (c : Controller) : Controller :=
  mkController (mapRef c) (mapInstanceRef c) (driverMarkerRef c)
    (customerMarkerRef c) (userMarkerRef c) (pathRef c) (mapReady c) b
    (lastId c).

Section Surface.

Variable visibleBounds : list L.ViewCmd -> L.LatLngBounds.

(** The update effect run by a render that saw [isInitialized = seen],
    whatever has been set since: the refs are live, the flag is the
    closure's. *)
Definition updateSeeing (seen : bool) (s : Snapshot) (c : Controller)
    : Controller :=
  withInitialized (isInitialized c)
    (snd (applySnapshot visibleBounds s (withInitialized seen c))).

(** Mounting: the first render, then its effects in order, the
    initialisation effect and the update effect, both with the closure of
    that render. *)
Definition mount (p : Props) : Instance :=
  let s := firstRender p in
  let c := snd (initialize s mounted) in
  mkInstance (updateSeeing false s c) None (history p) (depsOf p).

(** A later render with the props [p]: the update effect runs if its
    dependencies changed, and sees the flags as they now are. *)
Definition rerender (p : Props) (k : Instance) : Instance :=
  let s := closure p k in
  mkInstance
    (if sameDeps (depsOf p) (deps k) then view k
     else snd (applySnapshot visibleBounds s (view k)))
    (deviceLocation k) (capturedHistory s) (depsOf p).

(** The device position arrives ([setUserLocation]): a render with the same
    props follows, in which no dependency has changed. *)
Definition located (u : Location) (k : Instance) : Instance :=
  mkInstance (view k) (Some u) (captured k) (deps k).

Inductive Event : Type :=
  | Rerender (p : Props)
  | Located (u : Location).

Definition step (k : Instance) (e : Event) : Instance :=
  match e with
  | Rerender p => rerender p k
  | Located u => located u k
  end.

(** The component after a sequence of events, oldest first. *)
Definition play (es : list Event) (k : Instance) : Instance :=
  fold_left step es k.

End Surface.

(** The initialisation effect run again, which React does only after the
    cleanup: with the closure of the first render. *)
Definition rerunInit (p : Props) (c : Controller) : Completion * Controller :=
  initialize (firstRender p) (dispose c).

(** The props of a snapshot. *)
Definition propsOf (s : Snapshot) : Props :=
  mkProps (driverLocation s) (customerLocation s) (locationHistory s).

End Component.

(** ** Further vocabulary *)

Module Terms.

Import MapComponent.

Definition isNumber (x : float) : bool := negb (PrimFloat.is_nan x).

Definition numericCoordinate (p : Location) : bool :=
  isNumber (lat p) && isNumber (lng p).

(** Every coordinate the update effect hands to the map library is a
    number. *)
Definition numericSnapshot (s : Snapshot) : bool :=
  numericCoordinate (driverLocation s)
  && numericCoordinate (customerLocation s)
  && forallb numericCoordinate (locationHistory s)
  && forallb numericCoordinate (capturedHistory s)
  && match userLocation s with
     | Some u => numericCoordinate u
     | None => true
     end.

(** The viewport commands of mounting with the props [p]: the view on the
    midpoint of driver and customer, then the first fit. *)
Definition mountLog (p : Component.Props) : list L.ViewCmd :=
  [ L.SetView
      ((lat (Component.driver p) + lat (Component.customer p)) / 2,
       (lng (Component.driver p) + lng (Component.customer p)) / 2)%float
      13 None;
    View.fitCommand (Component.firstRender p) ].

(** The component still holds what mounting with [p] created: that map,
    with its tiles, its controls and its first viewport commands, the two
    markers created then, no user marker, both flags up. *)
Definition asMounted (p : Component.Props) (c : Controller) : Prop :=
  isInitialized c = true
  /\ mapReady c = true
  /\ userMarkerRef c = None
  /\ option_map L.marker_id (driverMarkerRef c) = Some 1
  /\ option_map L.marker_id (customerMarkerRef c) = Some 2
  /\ exists m later,
       mapInstanceRef c = Some m
       /\ L.tiles m = [osmTiles]
       /\ L.controls m
          = [L.ZoomControl "topright"; L.ScaleControl "bottomleft"]
       /\ L.viewLog m = mountLog p ++ later.

(** The props of the renders among a sequence of events. *)
Definition rendersOf (es : list Component.Event) : list Component.Props :=
  flat_map (fun e => match e with
                     | Component.Rerender p => [p]
                     | Component.Located _ => []
                     end) es.

(** The last snapshot of a sequence whose History has at least 2 points. *)
Fixpoint lastLong (ss : list Snapshot) : option Snapshot :=
  match ss with
  | [] => None
  | s :: rest =>
    match lastLong rest with
    | Some s' => Some s'
    | None => if 1 <? length (locationHistory s) then Some s else None
    end
  end.

End Terms.

(** * Properties *)

(** ** Arrays and floats *)

Lemma slice_last (A : Type) (n : nat) (l : list A) :
  Js.slice (- Z.of_nat (S n)) l = Contract.lastPoints (S n) l.
Proof.
  unfold Js.slice, Contract.lastPoints.
  destruct (Z.ltb_spec (- Z.of_nat (S n)) 0) as [_ | Hge]; [ | lia ].
  f_equal. lia.
Qed.

Lemma leb_refl_left (x y : float) :
  (x <=? y)%float = true -> (x <=? x)%float = true.
Proof.
  rewrite !leb_spec. unfold SFleb.
  destruct (Prim2SF x) as [s | s | | s m e];
    destruct (Prim2SF y) as [s' | s' | | s' m' e']; cbn;
    try discriminate; intros _; try destruct s; cbn; auto;
    rewrite ?Z.compare_refl, ?Pos.compare_cont_refl, ?Pos.compare_refl;
    cbn; auto.
Qed.

Lemma leb_refl_right (x y : float) :
  (x <=? y)%float = true -> (y <=? y)%float = true.
Proof.
  rewrite !leb_spec. unfold SFleb.
  destruct (Prim2SF x) as [s | s | | s m e];
    destruct (Prim2SF y) as [s' | s' | | s' m' e']; cbn;
    try discriminate; intros _; try destruct s'; cbn; auto;
    rewrite ?Z.compare_refl, ?Pos.compare_cont_refl, ?Pos.compare_refl;
    cbn; auto.
Qed.

Lemma contains_edge (b : L.LatLngBounds) (p : L.LatLng) :
  Contract.wellFormed b -> Contract.onEdge b p -> L.contains b p = true.
Proof.
  intros [Hlat Hlng] Hedge. unfold L.contains.
  destruct Hedge as [[Hside [Hw He]] | [Hside [Hs Hn]]].
  - rewrite Hw, He, !andb_true_r.
    destruct Hside as [-> | ->].
    + now rewrite (leb_refl_left _ _ Hlat), Hlat.
    + now rewrite Hlat, (leb_refl_right _ _ Hlat).
  - rewrite Hs, Hn. cbn.
    destruct Hside as [-> | ->].
    + now rewrite (leb_refl_left _ _ Hlng), Hlng.
    + now rewrite Hlng, (leb_refl_right _ _ Hlng).
Qed.

(** ** The viewport re-fit heuristic *)

Section RefitHeuristic.

Import MapComponent Contract.

Variable visibleBounds : list L.ViewCmd -> L.LatLngBounds.

Lemma shouldRefit_unfold (s : Snapshot) (c : Controller) (m : L.Map) :
  mapInstanceRef c = Some m ->
  2 <= length (locationHistory s) ->
  shouldRefitMap visibleBounds s c
  = existsb (fun p => negb (L.contains (getBounds visibleBounds m) (coords p)))
            (lastPoints 3 (locationHistory s)).
Proof.
  intros Hmap Hlen. unfold shouldRefitMap. rewrite Hmap.
  destruct (Nat.ltb_spec (length (locationHistory s)) 2) as [Hlt | _]; [ lia | ].
  unfold Js.some. now rewrite (slice_last _ 2).
Qed.

Lemma shouldRefit_captured (s : Snapshot) (c : Controller) (m : L.Map) :
  mapInstanceRef c = Some m ->
  2 <= length (capturedHistory s) ->
  shouldRefit visibleBounds s c
  = existsb (fun p => negb (L.contains (getBounds visibleBounds m) (coords p)))
            (lastPoints 3 (capturedHistory s)).
Proof.
  intros Hmap Hlen. unfold shouldRefit.
  exact (shouldRefit_unfold (capturing s) c m Hmap Hlen).
Qed.

Lemma outside_iff (b : L.LatLngBounds) (h : list Location) :
  existsb (fun p => negb (L.contains b (coords p))) h = true
  <-> exists p, In p h /\ L.contains b (coords p) = false.
Proof.
  rewrite existsb_exists.
  split; intros [p [Hin Hout]]; exists p; (split; [ exact Hin | ]);
    now apply negb_true_iff.
Qed.

(** C1 (as amended): for every controller holding a map and every render
    whose History has at least 2 points, the re-fit check of that render
    returns true if and only if at least one of the last 3 points of the
    History its memoised [shouldRefitMap] callback closed over lies outside
    the map's current visible bounds; a point exactly on the edge of
    (well-formed) bounds is contained.  The callback is memoised on the
    History length: in a render of the component it closed over the current
    History whenever the length changed at this render or the History was
    only appended to, and then the check looks at the last 3 points of the
    current History; after a History replaced at equal length it still
    looks at the old one. *)
Theorem shouldRefit_iff_recent_point_outside
    (s : Snapshot) (c : Controller) (m : L.Map) :
  mapInstanceRef c = Some m ->
  length (capturedHistory s) = length (locationHistory s) ->
  2 <= length (locationHistory s) ->
  (shouldRefit visibleBounds s c = true
   <-> exists p, In p (lastPoints 3 (capturedHistory s))
                 /\ L.contains (getBounds visibleBounds m) (coords p) = false)
  /\ (capturedHistory s = locationHistory s ->
      (shouldRefit visibleBounds s c = true
       <-> exists p, In p (lastPoints 3 (locationHistory s))
                     /\ L.contains (getBounds visibleBounds m) (coords p)
                        = false))
  /\ (wellFormed (getBounds visibleBounds m) ->
      (forall p, In p (lastPoints 3 (capturedHistory s)) ->
                 onEdge (getBounds visibleBounds m) (coords p)) ->
      shouldRefit visibleBounds s c = false)
  /\ (forall (p : Component.Props) (k : Component.Instance),
        let r := Component.closure p k in
        length (capturedHistory r) = length (locationHistory r)
        /\ (length (Component.history p) <> length (Component.captured k) ->
            capturedHistory r = locationHistory r)
        /\ (forall newer,
              Component.history p = Component.captured k ++ newer ->
              capturedHistory r = locationHistory r)
        /\ (length (Component.history p) = length (Component.captured k) ->
            capturedHistory r = Component.captured k)).
Proof.
  intros Hmap Hsame Hlen.
  assert (Hcap : 2 <= length (capturedHistory s)) by lia.
  rewrite (shouldRefit_captured s c m Hmap Hcap).
  split; [ apply outside_iff | ].
  split; [ intros <-; apply outside_iff | ].
  split.
  - intros Hwf Hedge. apply not_true_is_false. rewrite outside_iff.
    intros [p [Hin Hout]].
    rewrite (contains_edge _ _ Hwf (Hedge p Hin)) in Hout. discriminate.
  - intros p k. unfold Component.closure. cbn.
    destruct (Nat.eqb_spec (length (Component.history p))
                           (length (Component.captured k))) as [Heq | Hneq].
    + repeat split; try congruence.
      intros newer Happ. rewrite Happ, length_app in Heq.
      assert (Hnil : newer = []) by (apply length_zero_iff_nil; lia).
      subst newer. now rewrite app_nil_r in Happ.
    + repeat split; congruence.
Qed.

(** C2: whatever the driver position, the customer location and the user
    location, [shouldRefitMap] returns false when History has fewer than 2
    points, wherever those points are. *)
Theorem shouldRefit_false_below_two_points (s : Snapshot) (c : Controller) :
  length (locationHistory s) < 2 ->
  shouldRefitMap visibleBounds s c = false.
Proof.
  intros Hlen. unfold shouldRefitMap.
  destruct (mapInstanceRef c) as [m | ]; [ | reflexivity ].
  destruct (Nat.ltb_spec (length (locationHistory s)) 2) as [_ | Hge];
    [ reflexivity | lia ].
Qed.

End RefitHeuristic.

Section RefitHeuristicExamples.

Import MapComponent Contract.

(** C1, as first stated, fails, in two ways.  Once the component is mounted
    with a History of one point that lies outside the visible bounds, one
    of the last 3 points is outside and yet the re-fit check returns false.
    And once it is mounted with 4 points in view, a render whose History
    has 4 other points, the last one out of view, still checks the old
    ones: a point of the last 3 is outside and the check returns false. *)
Lemma shouldRefit_single_outside_point_not_iff :
  (let s := Component.firstRender (Component.propsOf onePointAway) in
   let c := Component.view
              (Component.mount vancouver (Component.propsOf onePointAway)) in
   exists m, mapInstanceRef c = Some m
   /\ capturedHistory s = locationHistory s
   /\ ~ (shouldRefit vancouver s c = true
         <-> exists p, In p (lastPoints 3 (locationHistory s))
                       /\ L.contains (getBounds vancouver m) (coords p)
                          = false))
  /\ (let k := Component.mount vancouver
                 (Component.propsOf Samples.replaced) in
      let s := Component.closure (Component.propsOf scenarioB) k in
      exists m, mapInstanceRef (Component.view k) = Some m
      /\ 2 <= length (locationHistory s)
      /\ Component.depsOf (Component.propsOf scenarioB) <> Component.deps k
      /\ ~ (shouldRefit vancouver s (Component.view k) = true
            <-> exists p, In p (lastPoints 3 (locationHistory s))
                          /\ L.contains (getBounds vancouver m) (coords p)
                             = false)).
Proof.
  split; cbv zeta.
  - eexists. split; [ reflexivity | ]. split; [ reflexivity | ].
    intros [_ Hback].
    assert (Hrefit : shouldRefit vancouver
                       (Component.firstRender (Component.propsOf onePointAway))
                       (Component.view
                          (Component.mount vancouver
                             (Component.propsOf onePointAway))) = true).
    { apply Hback. exists (at_ 60 0). split; [ now left | ]. now vm_compute. }
    vm_compute in Hrefit. discriminate.
  - eexists. split; [ reflexivity | ]. split; [ cbn; lia | ].
    split.
    { intros Heq. apply (f_equal (fun d => fst (fst (fst (fst d))))) in Heq.
      apply (f_equal (fun x => PrimFloat.eqb x 49.40)) in Heq.
      vm_compute in Heq. discriminate Heq. }
    intros [_ Hback].
    assert (Hrefit : shouldRefit vancouver
                       (Component.closure (Component.propsOf scenarioB)
                          (Component.mount vancouver
                             (Component.propsOf Samples.replaced)))
                       (Component.view
                          (Component.mount vancouver
                             (Component.propsOf Samples.replaced))) = true).
    { apply Hback. exists (at_ 49.40 (-123.00)).
      split; [ right; right; now left | now vm_compute ]. }
    vm_compute in Hrefit. discriminate.
Qed.

Lemma shouldRefit_iff_recent_point_outside_witness :
  let k := Component.mount vancouver (Component.propsOf scenarioA) in
  let s := Component.closure (Component.propsOf scenarioB) k in
  exists m, mapInstanceRef (Component.view k) = Some m
  /\ length (capturedHistory s) = length (locationHistory s)
  /\ 2 <= length (locationHistory s)
  /\ shouldRefit vancouver s (Component.view k) = true
  /\ exists p, In p (lastPoints 3 (locationHistory s))
               /\ L.contains (getBounds vancouver m) (coords p) = false.
Proof.
  cbv zeta. eexists. split; [ reflexivity | ].
  split; [ reflexivity | ]. split; [ cbn; lia | ].
  assert (Hrefit : shouldRefit vancouver
                     (Component.closure (Component.propsOf scenarioB)
                        (Component.mount vancouver (Component.propsOf scenarioA)))
                     (Component.view
                        (Component.mount vancouver (Component.propsOf scenarioA)))
                   = true)
    by now vm_compute.
  split; [ exact Hrefit | ].
  apply (proj1 (proj1 (proj2
           (shouldRefit_iff_recent_point_outside vancouver
              (Component.closure (Component.propsOf scenarioB)
                 (Component.mount vancouver (Component.propsOf scenarioA)))
              (Component.view
                 (Component.mount vancouver (Component.propsOf scenarioA)))
              _ eq_refl eq_refl ltac:(cbn; lia)))
           eq_refl)).
  exact Hrefit.
Defined.

Lemma shouldRefit_false_below_two_points_witness :
  length (locationHistory onePointAway) < 2
  /\ L.contains (vancouver []) (coords (at_ 60 0)) = false
  /\ shouldRefitMap vancouver onePointAway
       (snd (initialize onePointAway mounted)) = false.
Proof.
  split; [ cbn; lia | ]. split; [ now vm_compute | ].
  apply (shouldRefit_false_below_two_points vancouver onePointAway).
  cbn; lia.
Defined.

End RefitHeuristicExamples.

(** ** The effects, one step at a time *)

(** Split on the outcome of the re-fit check inside the update effect. *)
Ltac case_refit :=
  match goal with
  | |- context [MapComponent.shouldRefit ?v ?s ?c1] =>
      destruct (MapComponent.shouldRefit v s c1)
  end.

Lemma fitMapToPoints_some (m : L.Map) (history : list MapComponent.Location)
    (driver : MapComponent.Location) (customer : MapComponent.CustomerLocation)
    (user : option MapComponent.Location) :
  exists m',
    MapComponent.fitMapToPoints (Some m) history driver customer user = Some m'
    /\ L.layers m' = L.layers m.
Proof.
  unfold MapComponent.fitMapToPoints.
  destruct (1 <? length (MapComponent.allPoints history driver customer user));
    eexists; split; reflexivity.
Qed.

(** Name the map [fitMapToPoints] hands back, with its unchanged layers. *)
Ltac fit_some m' Hlayers :=
  match goal with
  | |- context [MapComponent.fitMapToPoints (Some ?m0) ?h ?d ?cu ?u] =>
      destruct (fitMapToPoints_some m0 h d cu u) as [m' [-> Hlayers]]
  end.

Section Effects.

Import MapComponent Contract.

Variable visibleBounds : list L.ViewCmd -> L.LatLngBounds.

(** What the update effect leaves in each ref of a live controller. *)
Lemma applySnapshot_live (s : Snapshot) (c : Controller) (m : L.Map) :
  mapInstanceRef c = Some m ->
  isInitialized c = true ->
  let r := applySnapshot visibleBounds s c in
  fst r = Returned
  /\ mapRef (snd r) = mapRef c
  /\ (exists m', mapInstanceRef (snd r) = Some m'
                 /\ forall id, In id (L.layers m) -> In id (L.layers m'))
  /\ isInitialized (snd r) = true
  /\ driverMarkerRef (snd r)
     = option_map (L.setLatLng (coords (driverLocation s))) (driverMarkerRef c)
  /\ customerMarkerRef (snd r)
     = option_map (fun mk => L.setPopupContent (customerPopup (customerLocation s))
                               (L.setLatLng (coords (customerLocation s)) mk))
                  (customerMarkerRef c)
  /\ pathRef (snd r)
     = if 1 <? length (locationHistory s) then
         match pathRef c with
         | Some pl => Some (L.setLatLngs (List.map coords (locationHistory s)) pl)
         | None => Some (L.polyline (S (lastId c))
                           (List.map coords (locationHistory s)) pathStyle)
         end
       else pathRef c.
Proof.
  intros Hmap Hinit. unfold applySnapshot. rewrite Hmap, Hinit. cbn [negb].
  destruct (1 <? length (locationHistory s)) eqn:Hlen.
  - destruct (pathRef c) as [pl | ] eqn:Hpath; cbv zeta beta iota;
      case_refit; cbn [fst snd mapRef mapInstanceRef isInitialized driverMarkerRef
                customerMarkerRef pathRef];
      repeat split; try reflexivity;
      try (fit_some m' Hlayers; exists m'; split; [ reflexivity | ];
           intros id Hid; rewrite Hlayers; cbn; auto using in_or_app);
      try (eexists; split; [ reflexivity | ]; cbn; auto using in_or_app).
  - cbv zeta beta iota. cbn. repeat split; try reflexivity.
    exists m. split; [ reflexivity | auto ].
Qed.

(** What the initialisation effect leaves in each ref of a mounted controller
    that is not initialised yet. *)
Lemma initialize_mounted (s : Snapshot) (c : Controller) :
  mapRef c <> None ->
  isInitialized c = false ->
  let r := initialize s c in
  fst r = Returned
  /\ mapRef (snd r) = mapRef c
  /\ (exists m, mapInstanceRef (snd r) = Some m
                /\ In (S (lastId c)) (L.layers m))
  /\ isInitialized (snd r) = true
  /\ driverMarkerRef (snd r)
     = Some (L.bindPopup "🚗 Driver Location"
               (L.marker (S (lastId c)) (coords (driverLocation s))
                  driverIcon 1000))
  /\ pathRef (snd r)
     = if 1 <? length (locationHistory s) then
         Some (L.polyline
                 (match userLocation s with
                  | Some _ => 4 + lastId c
                  | None => 3 + lastId c
                  end)
                 (List.map coords (locationHistory s)) pathStyle)
       else pathRef c.
Proof.
  intros Hmounted Hinit. unfold initialize.
  destruct (mapRef c) as [el | ] eqn:Hel; [ | congruence ]. rewrite Hinit.
  destruct (userLocation s) as [u | ];
    destruct (1 <? length (locationHistory s)) eqn:Hlen;
    cbv zeta beta iota;
    cbn [fst snd mapRef mapInstanceRef isInitialized driverMarkerRef pathRef];
    repeat split; try reflexivity;
    fit_some m' Hlayers; exists m'; (split; [ reflexivity | ]);
    rewrite Hlayers; cbn; auto.
Qed.

End Effects.

(** ** Preconditions, malformed input, the driver overlay, idempotence *)

Section Lifecycle.

Import MapComponent Contract.

Variable visibleBounds : list L.ViewCmd -> L.LatLngBounds.

(** C3 (as amended): an update that arrives before initialisation or after
    teardown is a silent no-op.  On a controller without a map, or whose
    initialised flag is down, [applySnapshot] returns normally and leaves
    every ref and flag as it was; after [dispose] the same holds of the
    update, of the re-fit check (which answers false), of the four manual
    handlers and of [dispose] itself.  The one call that is not a no-op
    after [dispose] is [initialize]: it returns normally as well, and on a
    mounted controller it builds a map again. *)
Theorem applySnapshot_outside_live_is_silent_noop
    (s : Snapshot) (c : Controller) :
  (mapInstanceRef c = None \/ isInitialized c = false ->
   applySnapshot visibleBounds s c = (Returned, c))
  /\ applySnapshot visibleBounds s mounted = (Returned, mounted)
  /\ applySnapshot visibleBounds s (dispose c) = (Returned, dispose c)
  /\ shouldRefitMap visibleBounds s (dispose c) = false
  /\ shouldRefit visibleBounds s (dispose c) = false
  /\ handleFitToPoints s (dispose c) = (Returned, dispose c)
  /\ handleCenterOnDriver s (dispose c) = (Returned, dispose c)
  /\ handleCenterOnCustomer s (dispose c) = (Returned, dispose c)
  /\ handleCenterOnUser s (dispose c) = (Returned, dispose c)
  /\ dispose (dispose c) = dispose c
  /\ fst (initialize s (dispose c)) = Returned
  /\ (mapRef c <> None ->
      mapInstanceRef (snd (initialize s (dispose c))) <> None
      /\ isInitialized (snd (initialize s (dispose c))) = true
      /\ snd (initialize s (dispose c)) <> dispose c).
Proof.
  assert (Hdisposed : mapInstanceRef (dispose c) = None).
  { unfold dispose. cbn. now destruct (mapInstanceRef c). }
  split; [ | split; [ reflexivity | ] ].
  - intros [Hmap | Hflag]; unfold applySnapshot.
    + now rewrite Hmap.
    + destruct (mapInstanceRef c); [ now rewrite Hflag | reflexivity ].
  - unfold applySnapshot, shouldRefit, shouldRefitMap, handleFitToPoints,
      handleCenterOnDriver, handleCenterOnCustomer, handleCenterOnUser.
    cbn [mapInstanceRef capturing]. rewrite Hdisposed.
    do 7 (split; [ reflexivity | ]).
    split; [ unfold dispose; cbn; now destruct (mapInstanceRef c) | ].
    assert (Hflag : isInitialized (dispose c) = false) by reflexivity.
    assert (Hsame : mapRef (dispose c) = mapRef c) by reflexivity.
    split.
    + unfold initialize. rewrite Hsame, Hflag.
      destruct (mapRef c); [ | reflexivity ].
      destruct (userLocation s); destruct (1 <? length (locationHistory s));
        reflexivity.
    + intros Hmounted.
      assert (Hm : mapRef (dispose c) <> None) by now rewrite Hsame.
      destruct (initialize_mounted s (dispose c) Hm Hflag)
        as (_ & _ & (m & Hmap & _) & Hinit & _).
      split; [ rewrite Hmap; discriminate | ].
      split; [ exact Hinit | ].
      intros Heq. rewrite Heq in Hinit. rewrite Hflag in Hinit. discriminate.
Qed.

(** C4 (as amended): the update effect checks no coordinate range.  A
    snapshot whose coordinates are numbers is never rejected, in range or
    not: on a live controller the update returns normally and leaves the
    driver and customer overlays at exactly the coordinates the snapshot
    carries, nothing clamped.  (A coordinate that is not a number is outside
    this statement: the map library refuses it.) *)
Theorem applySnapshot_checks_no_range
    (s : Snapshot) (c : Controller) (m : L.Map) (dm cm : L.Marker) :
  Terms.numericSnapshot s = true ->
  mapInstanceRef c = Some m ->
  isInitialized c = true ->
  driverMarkerRef c = Some dm ->
  customerMarkerRef c = Some cm ->
  let r := applySnapshot visibleBounds s c in
  fst r = Returned
  /\ option_map L.latlng (driverMarkerRef (snd r))
     = Some (lat (driverLocation s), lng (driverLocation s))
  /\ option_map L.latlng (customerMarkerRef (snd r))
     = Some (lat (customerLocation s), lng (customerLocation s)).
Proof.
  intros _ Hmap Hinit Hdm Hcm.
  destruct (applySnapshot_live visibleBounds s c m Hmap Hinit)
    as (Hret & _ & _ & _ & Hd & Hc & _).
  cbv zeta. rewrite Hret, Hd, Hc, Hdm, Hcm. cbn.
  repeat split. unfold L.setPopupContent. now destruct (L.popup _).
Qed.

(** C5: for valid snapshots S1 and S2, after [initialize] with S1 on a
    mounted controller and [applySnapshot] with S2, both calls having
    returned normally, the driver overlay is the marker [initialize] created,
    with the same identifier, icon, z-index and popup, still one of the map's
    layers, and its position is exactly S2's driver position. *)
Theorem driver_overlay_moved_to_latest
    (s1 s2 : Snapshot) (c : Controller) :
  validSnapshot s1 = true ->
  validSnapshot s2 = true ->
  mapRef c <> None ->
  isInitialized c = false ->
  let r1 := initialize s1 c in
  let r2 := applySnapshot visibleBounds s2 (snd r1) in
  fst r1 = Returned /\ fst r2 = Returned
  /\ exists mk m2,
       driverMarkerRef (snd r1) = Some mk
       /\ driverMarkerRef (snd r2)
          = Some (L.setLatLng (coords (driverLocation s2)) mk)
       /\ option_map L.latlng (driverMarkerRef (snd r2))
          = Some (lat (driverLocation s2), lng (driverLocation s2))
       /\ option_map L.marker_id (driverMarkerRef (snd r2)) = Some (L.marker_id mk)
       /\ mapInstanceRef (snd r2) = Some m2
       /\ In (L.marker_id mk) (L.layers m2).
Proof.
  intros _ _ Hmounted Hinit.
  destruct (initialize_mounted s1 c Hmounted Hinit)
    as (Hret1 & _ & (m1 & Hmap1 & Hlayer1) & Hinit1 & Hdriver1 & _).
  destruct (applySnapshot_live visibleBounds s2 _ m1 Hmap1 Hinit1)
    as (Hret2 & _ & (m2 & Hmap2 & Hlayers2) & _ & Hdriver2 & _).
  cbv zeta. split; [ exact Hret1 | ]. split; [ exact Hret2 | ].
  eexists. exists m2. split; [ exact Hdriver1 | ].
  rewrite Hdriver2, Hdriver1. cbn.
  repeat split; try reflexivity; [ exact Hmap2 | ].
  apply Hlayers2. exact Hlayer1.
Qed.

End Lifecycle.

(** ** The path overlay, the starting viewport, fitting to points *)

Section Overlays.

Import MapComponent Contract.

Variable visibleBounds : list L.ViewCmd -> L.LatLngBounds.

Lemma ltb_1_length (A : Type) (l : list A) :
  (1 <? length l) = true <-> 2 <= length l.
Proof. rewrite Nat.ltb_lt. lia. Qed.

(** One update keeps a live controller live; its path overlay is there
    afterwards iff it was there before or the History has 2 points. *)
Lemma applySnapshot_path_step (s : Snapshot) (c : Controller) :
  live c ->
  live (snd (applySnapshot visibleBounds s c))
  /\ (pathRef (snd (applySnapshot visibleBounds s c)) <> None
      <-> pathRef c <> None \/ 2 <= length (locationHistory s)).
Proof.
  intros [Hmap Hinit].
  destruct (mapInstanceRef c) as [m | ] eqn:Hm; [ | congruence ].
  destruct (applySnapshot_live visibleBounds s c m Hm Hinit)
    as (_ & _ & (m' & Hm' & _) & Hinit' & _ & _ & Hpath).
  split.
  - split; [ rewrite Hm'; discriminate | exact Hinit' ].
  - rewrite Hpath. rewrite <- ltb_1_length.
    destruct (1 <? length (locationHistory s)).
    + destruct (pathRef c); split; intros _; auto; discriminate.
    + split; [ now left | ]. intros [H | H]; [ exact H | discriminate ].
Qed.

Lemma run_path (ss : list Snapshot) :
  forall c, live c ->
  pathRef (run visibleBounds ss c) <> None
  <-> pathRef c <> None
      \/ exists s, In s ss /\ 2 <= length (locationHistory s).
Proof.
  induction ss as [ | s ss IH]; intros c Hlive; cbn.
  - split; [ now left | ]. intros [H | [s [[] _]]]. exact H.
  - destruct (applySnapshot_path_step s c Hlive) as [Hlive' Hstep].
    change (fold_left _ ss ?c') with (run visibleBounds ss c').
    rewrite (IH _ Hlive'), Hstep. split.
    + intros [[H | H] | [s' [Hin H]]]; [ now left | right | right ].
      * exists s. split; [ now left | exact H ].
      * exists s'. split; [ now right | exact H ].
    + intros [H | [s' [[<- | Hin] H]]].
      * left. now left.
      * left. now right.
      * right. now exists s'.
Qed.

Lemma run_path_points (ss : list Snapshot) :
  forall c, live c ->
  option_map L.latlngs (pathRef (run visibleBounds ss c))
  = match Terms.lastLong ss with
    | Some s => Some (List.map coords (locationHistory s))
    | None => option_map L.latlngs (pathRef c)
    end.
Proof.
  induction ss as [ | s ss IH]; intros c Hlive; [ reflexivity | ].
  cbn [Terms.lastLong].
  change (run visibleBounds (s :: ss) c)
    with (run visibleBounds ss (snd (applySnapshot visibleBounds s c))).
  destruct (applySnapshot_path_step s c Hlive) as [Hlive' _].
  rewrite (IH _ Hlive').
  destruct (Terms.lastLong ss); [ reflexivity | ].
  destruct Hlive as [Hmap Hinit].
  destruct (mapInstanceRef c) as [m | ] eqn:Hm; [ | congruence ].
  destruct (applySnapshot_live visibleBounds s c m Hm Hinit)
    as (_ & _ & _ & _ & _ & _ & Hpath).
  rewrite Hpath.
  destruct (1 <? length (locationHistory s)); [ | reflexivity ].
  now destruct (pathRef c).
Qed.

(** C7: the path overlay exists if and only if History has had at least 2
    points at some moment since initialisation, and it then runs through
    the History of the latest snapshot that had at least 2 points.
    [initialize] creates it iff the initial History has at least 2 points;
    [applySnapshot] with a History of at least 2 points gives the existing
    polyline, which keeps its identifier, its style and its place among the
    layers, the points of that History in order, or creates the polyline
    through those points and adds it to the map when there is none; with
    fewer than 2 points it leaves the path ref alone. *)
Theorem path_overlay_iff_threshold_crossed
    (s0 : Snapshot) (ss : list Snapshot) (c : Controller) :
  pristine c ->
  (pathRef (run visibleBounds ss (snd (initialize s0 c))) <> None
   <-> exists s, In s (s0 :: ss) /\ 2 <= length (locationHistory s))
  /\ option_map L.latlngs
       (pathRef (run visibleBounds ss (snd (initialize s0 c))))
     = option_map (fun s => List.map coords (locationHistory s))
         (Terms.lastLong (s0 :: ss))
  /\ (pathRef (snd (initialize s0 c)) <> None
      <-> 2 <= length (locationHistory s0))
  /\ (forall (s : Snapshot) (c' : Controller),
        live c' ->
        let after := snd (applySnapshot visibleBounds s c') in
        (2 <= length (locationHistory s) ->
         forall pl, pathRef c' = Some pl ->
           pathRef after
           = Some (L.setLatLngs (List.map coords (locationHistory s)) pl)
           /\ option_map L.latlngs (pathRef after)
              = Some (List.map coords (locationHistory s))
           /\ option_map L.polyline_id (pathRef after) = Some (L.polyline_id pl)
           /\ option_map L.style (pathRef after) = Some (L.style pl)
           /\ lastId after = lastId c'
           /\ option_map L.layers (mapInstanceRef after)
              = option_map L.layers (mapInstanceRef c'))
        /\ (2 <= length (locationHistory s) ->
            pathRef c' = None ->
            pathRef after
            = Some (L.polyline (S (lastId c'))
                      (List.map coords (locationHistory s)) pathStyle)
            /\ option_map L.latlngs (pathRef after)
               = Some (List.map coords (locationHistory s))
            /\ exists m, mapInstanceRef after = Some m
                         /\ In (S (lastId c')) (L.layers m))
        /\ (length (locationHistory s) < 2 -> pathRef after = pathRef c')).
Proof.
  intros (Hmounted & Hinit & Hnopath).
  destruct (initialize_mounted s0 c Hmounted Hinit)
    as (_ & _ & (m0 & Hm0 & _) & Hinit0 & _ & Hpath0).
  assert (Hlive0 : live (snd (initialize s0 c))).
  { split; [ rewrite Hm0; discriminate | exact Hinit0 ]. }
  assert (Hfirst : pathRef (snd (initialize s0 c)) <> None
                   <-> 2 <= length (locationHistory s0)).
  { rewrite Hpath0, <- ltb_1_length.
    destruct (1 <? length (locationHistory s0)).
    - split; intros _; [ reflexivity | discriminate ].
    - rewrite Hnopath. split; [ congruence | discriminate ]. }
  split; [ | split; [ | split; [ exact Hfirst | ] ] ].
  - rewrite (run_path ss _ Hlive0), Hfirst. split.
    + intros [H | [s [Hin H]]].
      * exists s0. split; [ now left | exact H ].
      * exists s. split; [ now right | exact H ].
    + intros [s [[<- | Hin] H]]; [ now left | right; now exists s ].
  - rewrite (run_path_points ss _ Hlive0). cbn [Terms.lastLong].
    destruct (Terms.lastLong ss); [ reflexivity | ].
    rewrite Hpath0.
    destruct (1 <? length (locationHistory s0)); [ reflexivity | ].
    now rewrite Hnopath.
  - intros s c' [Hmap Hflag] after.
    destruct (mapInstanceRef c') as [m | ] eqn:Hm; [ clear Hmap | congruence ].
    split; [ | split ].
    + intros Hlen pl Hpl.
      destruct (applySnapshot_live visibleBounds s c' m Hm Hflag)
        as (_ & _ & _ & _ & _ & _ & Hpath).
      apply ltb_1_length in Hlen. rewrite Hlen, Hpl in Hpath.
      subst after. rewrite Hpath.
      do 4 (split; [ reflexivity | ]).
      unfold applySnapshot. rewrite Hm, Hflag, Hlen, Hpl.
      cbv zeta beta iota. cbn [negb].
      case_refit; cbn [snd lastId mapInstanceRef]; (split; [ reflexivity | ]);
        [ fit_some m' Hlayers; cbn; now rewrite Hlayers | reflexivity ].
    + intros Hlen Hnone.
      destruct (applySnapshot_live visibleBounds s c' m Hm Hflag)
        as (_ & _ & _ & _ & _ & _ & Hpath).
      apply ltb_1_length in Hlen. rewrite Hlen, Hnone in Hpath.
      subst after. split; [ exact Hpath | ].
      split; [ now rewrite Hpath | ].
      unfold applySnapshot. rewrite Hm, Hflag, Hlen, Hnone.
      cbv zeta beta iota. cbn [negb].
      case_refit; cbn [snd mapInstanceRef].
      * fit_some m' Hlayers.
        exists m'. split; [ reflexivity | ]. rewrite Hlayers. cbn.
        apply in_or_app. right. now left.
      * eexists. split; [ reflexivity | ]. cbn.
        apply in_or_app. right. now left.
    + intros Hlen.
      destruct (applySnapshot_live visibleBounds s c' m Hm Hflag)
        as (_ & _ & _ & _ & _ & _ & Hpath).
      subst after. rewrite Hpath.
      destruct (1 <? length (locationHistory s)) eqn:Hlt; [ | reflexivity ].
      apply ltb_1_length in Hlt. lia.
Qed.

(** C8: [initialize] first centres the viewport on the midpoint of the
    driver and customer coordinates, at zoom 13, and only then issues the
    fit-to-points adjustment.  For driver (49.28, -123.12) and customer
    (49.30, -123.10), empty history and no user location, it creates exactly
    the driver and the customer overlay, no user and no path overlay, and
    that first centre is (49.29, -123.11). *)
Theorem initialize_centres_on_midpoint (s : Snapshot) (c : Controller) :
  (mapRef c <> None ->
   isInitialized c = false ->
   exists m fit,
     mapInstanceRef (snd (initialize s c)) = Some m
     /\ L.viewLog m
        = [ L.SetView
              ((lat (driverLocation s) + lat (customerLocation s)) / 2,
               (lng (driverLocation s) + lng (customerLocation s)) / 2)%float
              13 None;
            L.FitBounds fit (L.mkFitBounds true 0.5 18 (20, 20)%Z) ])
  /\ (let a := snd (initialize scenarioA mounted) in
      option_map L.latlng (driverMarkerRef a) = Some (49.28, -123.12)%float
      /\ option_map L.latlng (customerMarkerRef a) = Some (49.30, -123.10)%float
      /\ userMarkerRef a = None
      /\ pathRef a = None
      /\ option_map L.layers (mapInstanceRef a) = Some [1; 2]
      /\ option_map (fun m => hd_error (L.viewLog m)) (mapInstanceRef a)
         = Some (Some (L.SetView (49.29, -123.11)%float 13 None))).
Proof.
  split.
  - intros Hmounted Hinit. unfold initialize.
    destruct (mapRef c) as [el | ]; [ | congruence ]. rewrite Hinit.
    destruct (userLocation s);
      destruct (1 <? length (locationHistory s));
      cbv zeta beta iota; cbn [snd mapInstanceRef];
      unfold fitMapToPoints; cbn; eexists; eexists; split; reflexivity.
  - vm_compute. repeat split.
Qed.

(** C9: the point set [fitMapToPoints] assembles always holds the driver and
    the customer coordinates, hence at least two entries; so on every map the
    call issues [fitBounds] on the bounds of those points padded by 10%, with
    pixel padding [20, 20] and maximal zoom 18, and never the single-point
    [setView] on the driver at zoom 15. *)
Theorem fitMapToPoints_always_fits_bounds
    (m : L.Map) (history : list Location) (driver : Location)
    (customer : CustomerLocation) (user : option Location) :
  let pts := allPoints history driver customer user in
  2 <= length pts
  /\ In (coords driver) pts
  /\ In (coords customer) pts
  /\ fitMapToPoints (Some m) history driver customer user
     = Some (L.fitBounds (L.pad pts 0.1)
               (L.mkFitBounds true 0.5 18 (20, 20)%Z) m)
  /\ fitMapToPoints (Some m) history driver customer user
     <> Some (L.setView (coords driver) 15 (Some (L.mkZoomPan true 0.5)) m).
Proof.
  cbv zeta.
  assert (Hlen : 2 <= length (allPoints history driver customer user)).
  { unfold allPoints. cbn [app length]. lia. }
  assert (Hfit : fitMapToPoints (Some m) history driver customer user
                 = Some (L.fitBounds
                           (L.pad (allPoints history driver customer user) 0.1)
                           (L.mkFitBounds true 0.5 18 (20, 20)%Z) m)).
  { unfold fitMapToPoints. apply ltb_1_length in Hlen. now rewrite Hlen. }
  split; [ exact Hlen | ].
  split; [ now left | ]. split; [ right; now left | ].
  split; [ exact Hfit | ].
  rewrite Hfit. unfold L.fitBounds, L.setView, L.issue. intros Heq.
  injection Heq as Heq. apply app_inv_head in Heq. discriminate.
Qed.

End Overlays.

(** ** The location history of the page *)

Section History.

Import Page.

Lemma fetch_history (r : FetchResult) (now : Date) (st : State) :
  exists suffix,
    locationHistory (fetchHelloFreshData r now st)
    = locationHistory st ++ suffix
    /\ length suffix = (if successful r then 1 else 0).
Proof.
  destruct r as [message | [ | ] status [message | [[d | ] [c | ]]]]; cbn;
    first [ now eexists
          | exists []; now rewrite app_nil_r ].
Qed.

Lemma poll_history (rs : list (FetchResult * Date)) :
  forall st, exists suffix,
    locationHistory (poll rs st) = locationHistory st ++ suffix
    /\ length suffix
       = length (filter (fun r => successful (fst r)) rs).
Proof.
  induction rs as [ | [r now] rs IH]; intros st; cbn.
  - exists []. now rewrite app_nil_r.
  - change (fold_left _ rs ?st') with (poll rs st').
    destruct (IH (fetchHelloFreshData r now st)) as [rest [Hrest Hlen]].
    destruct (fetch_history r now st) as [one [Hone Hlen1]].
    exists (one ++ rest). split.
    + now rewrite Hrest, Hone, app_assoc.
    + rewrite length_app, Hlen, Hlen1. now destruct (successful r).
Qed.

(** C10: the history only grows, and without bound.  A successful fetch
    appends exactly one entry, the driver position stamped with the time, at
    the end; a failed one leaves the history as it was; over any run of
    fetches the old history stays as a prefix and the length grows by the
    number of successful fetches, whatever that number is.  The history
    panel shows at most 10 entries: the 10 most recent, newest first. *)
Theorem history_grows_panel_shows_last_ten
    (st : State) (now : Date) (rs : list (FetchResult * Date)) :
  (forall status d c,
     locationHistory
       (fetchHelloFreshData
          (Response true status (Json (mkData (Some d) (Some c)))) now st)
     = locationHistory st ++ [mkEntry (latitude d) (longitude d) now])
  /\ (forall r, successful r = false ->
        locationHistory (fetchHelloFreshData r now st) = locationHistory st)
  /\ (exists suffix,
        locationHistory (poll rs st) = locationHistory st ++ suffix)
  /\ (forallb (fun r => successful (fst r)) rs = true ->
      length (locationHistory (poll rs st))
      = length (locationHistory st) + length rs)
  /\ length (historyPanel st) <= 10
  /\ historyPanel st = firstn 10 (rev (locationHistory st)).
Proof.
  split; [ reflexivity | ]. split; [ | split; [ | split; [ | split ] ] ].
  - intros r Hfail.
    destruct (fetch_history r now st) as [suffix [Heq Hlen]].
    rewrite Hfail in Hlen. apply length_zero_iff_nil in Hlen. subst suffix.
    now rewrite app_nil_r in Heq.
  - destruct (poll_history rs st) as [suffix [Heq _]]. now exists suffix.
  - intros Hall.
    destruct (poll_history rs st) as [suffix [Heq Hlen]].
    rewrite Heq, length_app, Hlen. f_equal.
    clear - Hall. induction rs as [ | r rs IH]; [ reflexivity | ].
    cbn in Hall |- *. apply andb_true_iff in Hall as [Hr Hrs].
    rewrite Hr. cbn. now rewrite IH.
  - unfold historyPanel, Js.reverse. rewrite length_rev.
    rewrite (slice_last _ 9). unfold Contract.lastPoints.
    rewrite length_skipn. lia.
  - unfold historyPanel, Js.reverse.
    rewrite (slice_last _ 9). unfold Contract.lastPoints.
    now rewrite firstn_rev.
Qed.

End History.

(** ** The properties at work on the scenarios *)

Section Scenarios.

Import MapComponent Contract.

(** C3, as first stated, fails: an update before initialisation, and an
    update after teardown, do not end in a precondition error. *)
Lemma applySnapshot_unready_not_thrown :
  fst (applySnapshot vancouver scenarioB mounted)
    <> Thrown PreconditionViolation
  /\ fst (applySnapshot vancouver scenarioB
            (dispose (snd (initialize scenarioA mounted))))
       <> Thrown PreconditionViolation.
Proof. split; vm_compute; discriminate. Qed.

Lemma applySnapshot_outside_live_is_silent_noop_witness :
  (mapInstanceRef mounted = None \/ isInitialized mounted = false)
  /\ applySnapshot vancouver scenarioB mounted = (Returned, mounted).
Proof.
  split; [ now left | ].
  apply (proj1 (applySnapshot_outside_live_is_silent_noop
                  vancouver scenarioB mounted)).
  now left.
Defined.

(** C4, as first stated, fails: a snapshot whose driver latitude is 200 is
    not rejected; the update returns normally and the driver overlay leaves
    its valid position (49.28, -123.12) for (200, -123.12). *)
Lemma applySnapshot_latitude_200_applied :
  let before := snd (initialize scenarioA mounted) in
  let r := applySnapshot vancouver scenarioC before in
  validSnapshot scenarioC = false
  /\ fst r <> Thrown MalformedCoordinate
  /\ option_map L.latlng (driverMarkerRef before) = Some (49.28, -123.12)%float
  /\ option_map L.latlng (driverMarkerRef (snd r)) = Some (200, -123.12)%float
  /\ driverMarkerRef (snd r) <> driverMarkerRef before.
Proof. vm_compute. repeat split; discriminate. Qed.

Lemma applySnapshot_checks_no_range_witness :
  let c := snd (initialize scenarioA mounted) in
  let r := applySnapshot vancouver scenarioC c in
  exists m dm cm,
    Terms.numericSnapshot scenarioC = true
    /\ validSnapshot scenarioC = false
    /\ mapInstanceRef c = Some m
    /\ isInitialized c = true
    /\ driverMarkerRef c = Some dm
    /\ customerMarkerRef c = Some cm
    /\ fst r = Returned
    /\ option_map L.latlng (driverMarkerRef (snd r)) = Some (200, -123.12)%float
    /\ option_map L.latlng (customerMarkerRef (snd r))
       = Some (49.30, -123.10)%float.
Proof.
  cbv zeta. do 3 eexists.
  assert (Hnum : Terms.numericSnapshot scenarioC = true)
    by (vm_compute; reflexivity).
  split; [ exact Hnum | ]. split; [ vm_compute; reflexivity | ].
  split; [ reflexivity | ]. split; [ reflexivity | ].
  split; [ reflexivity | ]. split; [ reflexivity | ].
  exact (applySnapshot_checks_no_range vancouver scenarioC
           (snd (initialize scenarioA mounted)) _ _ _
           Hnum eq_refl eq_refl eq_refl eq_refl).
Defined.

Lemma driver_overlay_moved_to_latest_witness :
  validSnapshot scenarioA = true
  /\ validSnapshot scenarioB = true
  /\ mapRef mounted <> None
  /\ isInitialized mounted = false
  /\ option_map L.latlng
       (driverMarkerRef
          (snd (applySnapshot vancouver scenarioB
                  (snd (initialize scenarioA mounted)))))
     = Some (49.40, -123.00)%float.
Proof.
  assert (Ha : validSnapshot scenarioA = true) by (vm_compute; reflexivity).
  assert (Hb : validSnapshot scenarioB = true) by (vm_compute; reflexivity).
  assert (Hm : mapRef mounted <> None) by discriminate.
  split; [ exact Ha | ]. split; [ exact Hb | ]. split; [ exact Hm | ].
  split; [ reflexivity | ].
  destruct (driver_overlay_moved_to_latest vancouver scenarioA scenarioB
              mounted Ha Hb Hm eq_refl)
    as (_ & _ & mk & m2 & _ & _ & Hpos & _).
  exact Hpos.
Defined.

Lemma path_overlay_iff_threshold_crossed_witness :
  pristine mounted
  /\ pathRef (run vancouver [onePointAway; scenarioB]
                (snd (initialize scenarioA mounted))) <> None
  /\ pathRef (run vancouver [onePointAway]
                (snd (initialize scenarioA mounted))) = None.
Proof.
  assert (Hp : pristine mounted).
  { split; [ discriminate | ]. split; reflexivity. }
  split; [ exact Hp | ]. split.
  - apply (proj1 (path_overlay_iff_threshold_crossed vancouver scenarioA
                    [onePointAway; scenarioB] mounted Hp)).
    exists scenarioB. split; [ right; right; now left | cbn; lia ].
  - reflexivity.
Defined.

Lemma initialize_centres_on_midpoint_witness :
  mapRef mounted <> None
  /\ isInitialized mounted = false
  /\ exists m fit,
       mapInstanceRef (snd (initialize scenarioA mounted)) = Some m
       /\ L.viewLog m
          = [ L.SetView
                ((49.28 + 49.30) / 2, (-123.12 + -123.10) / 2)%float 13 None;
              L.FitBounds fit (L.mkFitBounds true 0.5 18 (20, 20)%Z) ].
Proof.
  assert (Hm : mapRef mounted <> None) by discriminate.
  split; [ exact Hm | ]. split; [ reflexivity | ].
  exact (proj1 (initialize_centres_on_midpoint scenarioA mounted) Hm eq_refl).
Defined.

Lemma history_grows_panel_shows_last_ten_witness :
  let rs := [(delivering, 1000%Z); (driverless, 2000%Z); (delivering, 3000%Z)] in
  forallb (fun r => Page.successful (fst r)) [(delivering, 1000%Z);
                                              (delivering, 3000%Z)] = true
  /\ length (Page.locationHistory
               (Page.poll [(delivering, 1000%Z); (delivering, 3000%Z)]
                  Page.initial)) = 2
  /\ length (Page.locationHistory (Page.poll rs Page.initial)) = 2.
Proof.
  cbv zeta. split; [ reflexivity | ]. split; [ | reflexivity ].
  apply (proj1 (proj2 (proj2 (proj2
           (history_grows_panel_shows_last_ten Page.initial 0%Z
              [(delivering, 1000%Z); (delivering, 3000%Z)]))))).
  reflexivity.
Defined.

End Scenarios.

(** ** More on the map view: viewport policy, overlays, handlers *)

Section ViewFacts.

Import MapComponent Contract View.

Variable visibleBounds : list L.ViewCmd -> L.LatLngBounds.

Lemma shouldRefitMap_viewLog (s : Snapshot) (c c' : Controller) :
  option_map L.viewLog (mapInstanceRef c)
  = option_map L.viewLog (mapInstanceRef c') ->
  shouldRefitMap visibleBounds s c = shouldRefitMap visibleBounds s c'.
Proof.
  unfold shouldRefitMap, getBounds.
  destruct (mapInstanceRef c) as [m | ], (mapInstanceRef c') as [m' | ];
    cbn; intros Heq; try discriminate; [ | reflexivity ].
  injection Heq as ->. reflexivity.
Qed.

Lemma shouldRefit_viewLog (s : Snapshot) (c c' : Controller) :
  option_map L.viewLog (mapInstanceRef c)
  = option_map L.viewLog (mapInstanceRef c') ->
  shouldRefit visibleBounds s c = shouldRefit visibleBounds s c'.
Proof. unfold shouldRefit. apply shouldRefitMap_viewLog. Qed.

(** What the update effect leaves in the map, the user ref and the stamp
    counter of a live controller. *)
Lemma applySnapshot_map (s : Snapshot) (c : Controller) (m : L.Map) :
  mapInstanceRef c = Some m ->
  isInitialized c = true ->
  let after := snd (applySnapshot visibleBounds s c) in
  let created :=
    if 1 <? length (locationHistory s) then
      match pathRef c with Some _ => [] | None => [S (lastId c)] end
    else [] in
  (exists m', mapInstanceRef after = Some m'
     /\ L.layers m' = L.layers m ++ created
     /\ L.viewLog m'
        = L.viewLog m
            ++ (if (1 <? length (locationHistory s))
                   && shouldRefit visibleBounds s c
                then [fitCommand s] else [])
     /\ L.tiles m' = L.tiles m /\ L.controls m' = L.controls m)
  /\ lastId after = length created + lastId c
  /\ mapReady after = mapReady c
  /\ userMarkerRef after
     = match userLocation s, userMarkerRef c with
       | Some u, Some mk => Some (L.setLatLng (coords u) mk)
       | _, r => r
       end.
Proof.
  intros Hm Hinit. unfold applySnapshot. rewrite Hm, Hinit. cbn [negb].
  destruct (1 <? length (locationHistory s)) eqn:Hlen.
  - destruct (pathRef c) as [pl | ] eqn:Hpath; cbv zeta beta iota;
      match goal with
      | |- context [shouldRefit visibleBounds s ?c1] =>
          rewrite (shouldRefit_viewLog s c1 c) by (now rewrite Hm)
      end;
      destruct (shouldRefit visibleBounds s c);
      cbn [snd mapInstanceRef lastId mapReady userMarkerRef length Nat.add];
      (split; [ | repeat split; reflexivity ]);
      eexists; (split; [ reflexivity | ]); cbn;
      rewrite ?app_nil_r; repeat split; reflexivity.
  - cbv zeta beta iota.
    cbn. split; [ | repeat split; reflexivity ].
    exists m. rewrite !app_nil_r. repeat split; reflexivity.
Qed.

(** X1: the re-fit check of a render looks at nothing but the last 3
    points of the History its memoised callback closed over.  Two renders
    whose callbacks closed over Histories of at least 2 points ending in the
    same 3 points get the same answer on the same controller, whatever else
    they hold: in particular two renders of a component whose Histories
    both have the length its callback was created for get the same answer
    whatever those Histories contain. *)
Theorem shouldRefit_depends_on_last_three (s s' : Snapshot) (c : Controller) :
  (2 <= length (capturedHistory s) ->
   2 <= length (capturedHistory s') ->
   lastPoints 3 (capturedHistory s) = lastPoints 3 (capturedHistory s') ->
   shouldRefit visibleBounds s c = shouldRefit visibleBounds s' c)
  /\ (forall (k : Component.Instance) (p p' : Component.Props),
        length (Component.history p) = length (Component.captured k) ->
        length (Component.history p') = length (Component.captured k) ->
        shouldRefit visibleBounds (Component.closure p k) c
        = shouldRefit visibleBounds (Component.closure p' k) c).
Proof.
  split.
  - intros Hlen Hlen' Hsame.
    destruct (mapInstanceRef c) as [m | ] eqn:Hm.
    + rewrite (shouldRefit_captured visibleBounds s c m Hm Hlen).
      rewrite (shouldRefit_captured visibleBounds s' c m Hm Hlen').
      now rewrite Hsame.
    + unfold shouldRefit, shouldRefitMap. now rewrite Hm.
  - intros k p p' Hp Hp'. unfold shouldRefit, shouldRefitMap.
    cbn [capturing Component.closure locationHistory capturedHistory].
    apply Nat.eqb_eq in Hp, Hp'. now rewrite Hp, Hp'.
Qed.

(** X3: the update effect never creates the user overlay.  Without one it
    leaves the user ref empty even when the snapshot carries a user
    location; with one it moves that marker (same identifier) to the user
    location when the snapshot has one and leaves it alone otherwise. *)
Theorem applySnapshot_user_overlay
    (s : Snapshot) (c : Controller) (m : L.Map) :
  mapInstanceRef c = Some m ->
  isInitialized c = true ->
  let after := snd (applySnapshot visibleBounds s c) in
  (userMarkerRef c = None -> userMarkerRef after = None)
  /\ (forall mk u, userMarkerRef c = Some mk -> userLocation s = Some u ->
       userMarkerRef after = Some (L.setLatLng (coords u) mk))
  /\ (userLocation s = None -> userMarkerRef after = userMarkerRef c)
  /\ markerIds (userMarkerRef after) = markerIds (userMarkerRef c).
Proof.
  intros Hm Hinit.
  destruct (applySnapshot_map s c m Hm Hinit) as (_ & _ & _ & Huser).
  cbv zeta. rewrite Huser.
  split; [ | split; [ | split ] ].
  - intros ->. now destruct (userLocation s).
  - intros mk u -> ->. reflexivity.
  - intros ->. reflexivity.
  - destruct (userLocation s), (userMarkerRef c); reflexivity.
Qed.

Lemma applySnapshot_stays_live (s : Snapshot) (c : Controller) (m : L.Map) :
  mapInstanceRef c = Some m ->
  isInitialized c = true ->
  exists m', mapInstanceRef (snd (applySnapshot visibleBounds s c)) = Some m'
             /\ isInitialized (snd (applySnapshot visibleBounds s c)) = true.
Proof.
  intros Hm Hinit.
  destruct (applySnapshot_live visibleBounds s c m Hm Hinit)
    as (_ & _ & (m' & Hm' & _) & Hinit' & _).
  now exists m'.
Qed.

(** X4: a duplicate snapshot changes no overlay.  Applying the same snapshot
    to a live controller a second time leaves the four overlay refs, the
    stamp counter, the flags and the layers of the map exactly as the first
    application left them; only the viewport may be fitted again. *)
Theorem applySnapshot_duplicate_keeps_overlays
    (s : Snapshot) (c : Controller) (m : L.Map) :
  mapInstanceRef c = Some m ->
  isInitialized c = true ->
  let once := snd (applySnapshot visibleBounds s c) in
  let twice := snd (applySnapshot visibleBounds s once) in
  driverMarkerRef twice = driverMarkerRef once
  /\ customerMarkerRef twice = customerMarkerRef once
  /\ userMarkerRef twice = userMarkerRef once
  /\ pathRef twice = pathRef once
  /\ lastId twice = lastId once
  /\ mapReady twice = mapReady once
  /\ isInitialized twice = isInitialized once
  /\ option_map L.layers (mapInstanceRef twice)
     = option_map L.layers (mapInstanceRef once).
Proof.
  intros Hm Hinit.
  destruct (applySnapshot_live visibleBounds s c m Hm Hinit)
    as (_ & _ & (m1 & Hm1 & _) & Hinit1 & Hd1 & Hc1 & Hp1).
  destruct (applySnapshot_map s c m Hm Hinit)
    as (_ & _ & _ & Hu1).
  destruct (applySnapshot_live visibleBounds s _ m1 Hm1 Hinit1)
    as (_ & _ & _ & Hinit2 & Hd2 & Hc2 & Hp2).
  destruct (applySnapshot_map s _ m1 Hm1 Hinit1)
    as ((m2 & Hm2 & Hlayers2 & _) & Hid2 & Hready2 & Hu2).
  cbv zeta.
  assert (Hpath : pathRef (snd (applySnapshot visibleBounds s
                     (snd (applySnapshot visibleBounds s c))))
                  = pathRef (snd (applySnapshot visibleBounds s c))).
  { rewrite Hp2, Hp1.
    destruct (1 <? length (locationHistory s)); [ | reflexivity ].
    now destruct (pathRef c). }
  assert (Hnone : (if 1 <? length (locationHistory s) then
                     match pathRef (snd (applySnapshot visibleBounds s c)) with
                     | Some _ => []
                     | None => [S (lastId (snd (applySnapshot visibleBounds s c)))]
                     end
                   else []) = []).
  { rewrite Hp1.
    destruct (1 <? length (locationHistory s)); [ | reflexivity ].
    now destruct (pathRef c). }
  rewrite Hnone in Hlayers2, Hid2. rewrite app_nil_r in Hlayers2.
  repeat split.
  - rewrite Hd2, Hd1. now destruct (driverMarkerRef c).
  - rewrite Hc2, Hc1. destruct (customerMarkerRef c) as [mk | ]; [ | reflexivity ].
    now destruct mk as [id pos ic z [content | ]].
  - rewrite Hu2, Hu1.
    now destruct (userLocation s), (userMarkerRef c).
  - exact Hpath.
  - exact Hid2.
  - exact Hready2.
  - now rewrite Hinit2, Hinit1.
  - rewrite Hm2, Hm1. cbn. now rewrite Hlayers2.
Qed.

End ViewFacts.

(** ** The refs and the map stay in step *)

Lemma NoDup_snoc (A : Type) (l : list A) (x : A) :
  NoDup l -> ~ In x l -> NoDup (l ++ [x]).
Proof.
  induction 1 as [ | y l Hy Hl IH]; intros Hx; cbn.
  - constructor; [ intros [] | constructor ].
  - constructor.
    + rewrite in_app_iff. intros [Hin | [-> | []]]; [ now apply Hy | ].
      apply Hx. now left.
    + apply IH. intros Hin. apply Hx. now right.
Qed.

Section ViewInvariant.

Import MapComponent Contract View.

Variable visibleBounds : list L.ViewCmd -> L.LatLngBounds.

Lemma initialize_coherent (s : Snapshot) (c : Controller) :
  untouched c -> coherent (snd (initialize s c)).
Proof.
  intros (Hmounted & Hinit & Huser & Hpath). unfold initialize.
  destruct (mapRef c) as [el | ]; [ | congruence ].
  rewrite Hinit, Huser, Hpath.
  destruct (userLocation s) as [u | ];
    destruct (1 <? length (locationHistory s));
    cbv zeta beta iota; unfold coherent, overlayIds;
    cbn [snd isInitialized driverMarkerRef customerMarkerRef userMarkerRef
         pathRef mapInstanceRef lastId markerIds pathIds L.bindPopup L.marker
         L.polyline L.marker_id L.polyline_id app];
    (split; [ reflexivity | ]); (split; [ discriminate | ]);
    (split; [ discriminate | ]);
    (split; [ fit_some m' Hlayers; exists m'; split; [ reflexivity | ];
              rewrite Hlayers; reflexivity | ]);
    (split; [ repeat (constructor; [ cbn; lia | ]); constructor
            | repeat (constructor; [ lia | ]); constructor ]).
Qed.

Lemma markerIds_moved (p : L.LatLng) (r : option L.Marker) :
  markerIds (option_map (L.setLatLng p) r) = markerIds r.
Proof. now destruct r. Qed.

Lemma markerIds_refreshed (content : string) (p : L.LatLng)
    (r : option L.Marker) :
  markerIds
    (option_map (fun mk => L.setPopupContent content (L.setLatLng p mk)) r)
  = markerIds r.
Proof. now destruct r as [[id pos ic z [old | ]] | ]. Qed.

Lemma applySnapshot_coherent (s : Snapshot) (c : Controller) :
  coherent c -> coherent (snd (applySnapshot visibleBounds s c)).
Proof.
  intros (Hinit & Hd & Hc & (m & Hm & Hlayers) & Hnodup & Hbound).
  destruct (applySnapshot_live visibleBounds s c m Hm Hinit)
    as (_ & _ & _ & Hinit' & Hd' & Hc' & Hp').
  destruct (applySnapshot_map visibleBounds s c m Hm Hinit)
    as ((m' & Hm' & Hlayers' & _) & Hid' & _ & Hu').
  cbv zeta in Hlayers', Hid'.
  set (created := if 1 <? length (locationHistory s) then
                    match pathRef c with
                    | Some _ => []
                    | None => [S (lastId c)]
                    end
                  else []) in *.
  assert (Hids : overlayIds (snd (applySnapshot visibleBounds s c))
                 = overlayIds c ++ created).
  { unfold overlayIds. rewrite Hd', Hc', Hu', Hp'.
    rewrite markerIds_moved, markerIds_refreshed.
    replace (markerIds match userLocation s, userMarkerRef c with
                       | Some u, Some mk => Some (L.setLatLng (coords u) mk)
                       | _, r => r
                       end)
      with (markerIds (userMarkerRef c))
      by now destruct (userLocation s), (userMarkerRef c).
    rewrite <- !app_assoc. do 3 f_equal. subst created.
    destruct (1 <? length (locationHistory s));
      [ now destruct (pathRef c) | now rewrite app_nil_r ]. }
  assert (Hcases : created = [] \/ created = [S (lastId c)]).
  { subst created. destruct (1 <? length (locationHistory s)); [ | now left ].
    destruct (pathRef c); [ now left | now right ]. }
  unfold coherent. rewrite Hids, Hid'.
  split; [ exact Hinit' | ].
  split; [ rewrite Hd'; destruct (driverMarkerRef c); [ discriminate | easy ] | ].
  split; [ rewrite Hc'; destruct (customerMarkerRef c); [ discriminate | easy ] | ].
  split; [ exists m'; split; [ exact Hm' | now rewrite Hlayers', Hlayers ] | ].
  destruct Hcases as [-> | ->].
  - rewrite app_nil_r. split; [ exact Hnodup | exact Hbound ].
  - split.
    + apply NoDup_snoc; [ exact Hnodup | ].
      intros Hin. rewrite Forall_forall in Hbound.
      specialize (Hbound _ Hin). lia.
    + apply Forall_app. split.
      * eapply Forall_impl; [ | exact Hbound ]. cbn. intros; lia.
      * constructor; [ cbn; lia | constructor ].
Qed.

Lemma run_coherent (ss : list Snapshot) :
  forall c, coherent c -> coherent (run visibleBounds ss c).
Proof.
  induction ss as [ | s ss IH]; intros c Hc; [ exact Hc | ].
  cbn. apply IH. now apply applySnapshot_coherent.
Qed.

Lemma overlayIds_count (c : Controller) :
  driverMarkerRef c <> None -> customerMarkerRef c <> None ->
  2 <= length (overlayIds c) <= 4.
Proof.
  unfold overlayIds.
  destruct (driverMarkerRef c), (customerMarkerRef c), (userMarkerRef c),
    (pathRef c); cbn; intros; try congruence; lia.
Qed.

(** X5: the refs and the map stay in step.  After [initialize] on an
    untouched controller and any sequence of updates, the layers of the map
    are exactly the overlays held by the driver, customer, user and path
    refs, each of them once and none with an identifier above the stamp
    counter; so the map holds between 2 and 4 overlays however many
    snapshots have arrived. *)
Theorem overlays_stay_in_step
    (s0 : Snapshot) (ss : list Snapshot) (c : Controller) :
  untouched c ->
  let now := run visibleBounds ss (snd (initialize s0 c)) in
  coherent now
  /\ exists m, mapInstanceRef now = Some m
               /\ L.layers m = overlayIds now
               /\ NoDup (L.layers m)
               /\ 2 <= length (L.layers m) <= 4.
Proof.
  intros Hc. cbv zeta.
  assert (Hnow : coherent (run visibleBounds ss (snd (initialize s0 c))))
    by (apply run_coherent; now apply initialize_coherent).
  split; [ exact Hnow | ].
  destruct Hnow as (_ & Hd & Hcu & (m & Hm & Hlayers) & Hnodup & _).
  exists m. rewrite Hlayers.
  repeat split; try assumption; now apply overlayIds_count.
Qed.

End ViewInvariant.

(** ** Handlers, the overlays of a fresh view, teardown and re-entry *)

Section HandlersAndLifecycle.

Import MapComponent Contract View.

Lemma viewLog_of (c : Controller) (m : L.Map) (cmd : L.ViewCmd) :
  mapInstanceRef c = Some m ->
  option_map L.viewLog (mapInstanceRef (withMap (L.issue cmd) c))
  = Some (L.viewLog m ++ [cmd])
  /\ sameOverlays c (withMap (L.issue cmd) c).
Proof.
  intros Hm. unfold withMap, sameOverlays. cbn. rewrite Hm. cbn.
  repeat split; reflexivity.
Qed.

(** X6: the manual handlers move the viewport and nothing else.  On a
    controller with a map, centre-on-driver, centre-on-customer and (with a
    user location) centre-on-user each append one [setView] on their target
    at zoom 16, animated over 0.5, and fit-all-points appends the
    [fitBounds] of [fitMapToPoints]; refs, flags, stamp counter, layers,
    tiles and controls stay as they were.  Without a user location
    centre-on-user does nothing at all. *)
Theorem handlers_move_only_the_viewport
    (s : Snapshot) (c : Controller) (m : L.Map) :
  mapInstanceRef c = Some m ->
  let log (r : Completion * Controller) :=
    option_map L.viewLog (mapInstanceRef (snd r)) in
  (fst (handleCenterOnDriver s c) = Returned
   /\ log (handleCenterOnDriver s c)
      = Some (L.viewLog m ++ [centreCommand (driverLocation s)])
   /\ sameOverlays c (snd (handleCenterOnDriver s c)))
  /\ (fst (handleCenterOnCustomer s c) = Returned
      /\ log (handleCenterOnCustomer s c)
         = Some (L.viewLog m ++ [centreCommand (customerLocation s)])
      /\ sameOverlays c (snd (handleCenterOnCustomer s c)))
  /\ (forall u, userLocation s = Some u ->
        fst (handleCenterOnUser s c) = Returned
        /\ log (handleCenterOnUser s c)
           = Some (L.viewLog m ++ [centreCommand u])
        /\ sameOverlays c (snd (handleCenterOnUser s c)))
  /\ (userLocation s = None -> handleCenterOnUser s c = (Returned, c))
  /\ (fst (handleFitToPoints s c) = Returned
      /\ log (handleFitToPoints s c) = Some (L.viewLog m ++ [fitCommand s])
      /\ sameOverlays c (snd (handleFitToPoints s c))).
Proof.
  intros Hm. cbv zeta.
  unfold handleCenterOnDriver, handleCenterOnCustomer, handleCenterOnUser,
    handleFitToPoints.
  rewrite Hm. cbn [fst snd].
  split; [ | split; [ | split; [ | split ] ] ].
  - split; [ reflexivity | ]. now apply viewLog_of.
  - split; [ reflexivity | ]. now apply viewLog_of.
  - intros u ->. split; [ reflexivity | ]. now apply viewLog_of.
  - intros ->. reflexivity.
  - split; [ reflexivity | ].
    unfold fitMapToPoints, sameOverlays, fitCommand. cbn.
    rewrite Hm. repeat split; reflexivity.
Qed.

End HandlersAndLifecycle.

(** ** The component: what its renders do to the view *)

Section ComponentFacts.

Import MapComponent Contract View Component.

Variable visibleBounds : list L.ViewCmd -> L.LatLngBounds.

Lemma updateSeeing_false (s : Snapshot) (c : Controller) :
  updateSeeing visibleBounds false s c = c.
Proof.
  unfold updateSeeing, applySnapshot, withInitialized.
  cbn [mapInstanceRef isInitialized negb].
  destruct c as [el map dm cm um path ready init id].
  cbn [mapInstanceRef]. now destruct map.
Qed.

Lemma mount_view (p : Props) :
  view (mount visibleBounds p) = snd (initialize (firstRender p) mounted).
Proof. unfold mount. cbn [view]. apply updateSeeing_false. Qed.

Lemma mount_asMounted (p : Props) :
  Terms.asMounted p (view (mount visibleBounds p)).
Proof.
  rewrite mount_view. unfold Terms.asMounted, Terms.mountLog, initialize.
  cbn [mapRef isInitialized mounted userLocation firstRender userMarkerRef
       pathRef lastId driverLocation customerLocation locationHistory].
  destruct (1 <? length (history p)); cbv zeta beta iota;
    cbn [snd isInitialized mapReady userMarkerRef driverMarkerRef
         customerMarkerRef mapInstanceRef option_map L.bindPopup L.marker
         L.marker_id];
    do 5 (split; [ reflexivity | ]);
    unfold fitMapToPoints, fitCommand; cbn; do 2 eexists;
    (split; [ reflexivity | ]); do 2 (split; [ reflexivity | ]);
    now rewrite app_nil_r.
Qed.

Lemma applySnapshot_asMounted (p : Props) (s : Snapshot) (c : Controller) :
  Terms.asMounted p c ->
  Terms.asMounted p (snd (applySnapshot visibleBounds s c)).
Proof.
  intros (Hinit & Hready & Huser & Hd & Hc
          & m & later & Hm & Htiles & Hctl & Hlog).
  destruct (applySnapshot_live visibleBounds s c m Hm Hinit)
    as (_ & _ & _ & Hinit' & Hd' & Hc' & _).
  destruct (applySnapshot_map visibleBounds s c m Hm Hinit)
    as ((m' & Hm' & _ & Hlog' & Htiles' & Hctl') & _ & Hready' & Hu').
  unfold Terms.asMounted.
  split; [ exact Hinit' | ]. split; [ now rewrite Hready' | ].
  split; [ rewrite Hu', Huser; now destruct (userLocation s) | ].
  split; [ rewrite Hd'; now destruct (driverMarkerRef c) | ].
  split.
  { rewrite Hc'. destruct (customerMarkerRef c) as [[id pos ic z [old | ]] | ];
      exact Hc. }
  exists m'. eexists. split; [ exact Hm' | ].
  split; [ now rewrite Htiles' | ]. split; [ now rewrite Hctl' | ].
  rewrite Hlog', Hlog, <- app_assoc. reflexivity.
Qed.

Lemma play_asMounted (p : Props) (es : list Event) :
  forall k, Terms.asMounted p (view k) ->
            Terms.asMounted p (view (play visibleBounds es k)).
Proof.
  induction es as [ | e es IH]; intros k Hk; [ exact Hk | ].
  cbn. apply IH. destruct e as [p' | u]; cbn [step rerender located view].
  - destruct (sameDeps (depsOf p') (deps k)); [ exact Hk | ].
    now apply applySnapshot_asMounted.
  - exact Hk.
Qed.

Lemma sameDeps_eq (a b : Deps) : sameDeps a b = true <-> a = b.
Proof.
  destruct a as [[[[a1 a2] a3] a4] an], b as [[[[b1 b2] b3] b4] bn].
  unfold sameDeps. rewrite !andb_true_iff, !Leibniz.eqb_spec, Nat.eqb_eq.
  split.
  - intros [[[[-> ->] ->] ->] ->]. reflexivity.
  - intros [= -> -> -> -> ->]. repeat split.
Qed.


(** X2: the viewport policy of a render.  On a live component a render
    whose five dependencies (the coordinates of driver and customer and the
    History length) are those of the render before runs no update: the
    view stays as it is, even if the History has other points or the
    device position has arrived.  Otherwise the update runs and issues at
    most one viewport command: a [fitBounds] over driver, customer, every
    History point and the device position, padded by 10%, exactly when the
    History has at least 2 points and the render's re-fit check says yes.
    Tiles and controls are never touched. *)
Theorem rerender_viewport_policy (p : Props) (k : Instance) (m : L.Map) :
  mapInstanceRef (view k) = Some m ->
  isInitialized (view k) = true ->
  let s := closure p k in
  (depsOf p = deps k -> view (rerender visibleBounds p k) = view k)
  /\ (depsOf p <> deps k ->
      view (rerender visibleBounds p k)
      = snd (applySnapshot visibleBounds s (view k))
      /\ exists m',
           mapInstanceRef (view (rerender visibleBounds p k)) = Some m'
           /\ L.viewLog m'
              = L.viewLog m
                  ++ (if (1 <? length (history p))
                         && shouldRefit visibleBounds s (view k)
                      then [fitCommand s] else [])
           /\ L.tiles m' = L.tiles m
           /\ L.controls m' = L.controls m)
  /\ (forall q, In q (history p) ->
        In (coords q)
           (allPoints (locationHistory s) (driverLocation s)
              (customerLocation s) (userLocation s)))
  /\ userLocation s = deviceLocation k.
Proof.
  intros Hm Hinit. cbv zeta. unfold rerender. cbn [view].
  split; [ | split; [ | split ] ].
  - intros Hsame. apply sameDeps_eq in Hsame. now rewrite Hsame.
  - intros Hdiff.
    destruct (sameDeps (depsOf p) (deps k)) eqn:Hsame;
      [ apply sameDeps_eq in Hsame; contradiction | ].
    split; [ reflexivity | ].
    destruct (applySnapshot_map visibleBounds (closure p k) (view k) m Hm Hinit)
      as ((m' & Hm' & _ & Hlog & Htiles & Hctl) & _).
    exists m'. repeat split; assumption.
  - intros q Hin. unfold allPoints. cbn [closure locationHistory].
    apply in_or_app. right. apply in_or_app. left. now apply in_map.
  - reflexivity.
Qed.

(** X7: the component never shows a user marker.  Mounting creates the
    driver and the customer marker at the props' coordinates, stacked
    driver above customer, the customer popup showing the delivery address,
    the path exactly when the History has at least 2 points (through all of
    them in order), and no user marker, because the first render does not
    know the device position yet; its first fit runs over driver, customer
    and History only.  No later render creates one either: after any
    sequence of renders and the arrival of the device position the user ref
    is still empty. *)
Theorem user_overlay_never_created (p : Props) (es : list Event) :
  let k0 := mount visibleBounds p in
  userMarkerRef (view (play visibleBounds es k0)) = None
  /\ userMarkerRef (view k0) = None
  /\ driverMarkerRef (view k0)
     = Some (L.mkMarker 1 (coords (driver p)) driverIcon 1000
               (Some "🚗 Driver Location"%string))
  /\ customerMarkerRef (view k0)
     = Some (L.mkMarker 2 (coords (customer p)) customerIcon 999
               (Some (customerPopup (customer p))))
  /\ pathRef (view k0)
     = (if 1 <? length (history p)
        then Some (L.mkPolyline 3 (List.map coords (history p)) pathStyle)
        else None)
  /\ option_map L.layers (mapInstanceRef (view k0))
     = Some (if 1 <? length (history p) then [1; 2; 3] else [1; 2])
  /\ option_map L.viewLog (mapInstanceRef (view k0))
     = Some [ L.SetView
                ((lat (driver p) + lat (customer p)) / 2,
                 (lng (driver p) + lng (customer p)) / 2)%float 13 None;
              L.FitBounds
                (L.pad ([coords (driver p); coords (customer p)]
                          ++ List.map coords (history p)) 0.1%float)
                (L.mkFitBounds true 0.5%float 18 (20, 20)%Z) ]
  /\ mapReady (view k0) = true.
Proof.
  cbv zeta.
  destruct (play_asMounted p es _ (mount_asMounted p))
    as (_ & _ & Huser & _).
  split; [ exact Huser | ].
  rewrite (mount_view p). unfold initialize.
  cbn [mapRef isInitialized mounted userLocation firstRender userMarkerRef
       pathRef lastId driverLocation customerLocation locationHistory].
  destruct (1 <? length (history p)); cbv zeta beta iota;
    cbn [snd userMarkerRef driverMarkerRef customerMarkerRef pathRef
         mapInstanceRef mapReady];
    unfold fitMapToPoints, allPoints; cbn; rewrite ?app_nil_r;
    repeat split; reflexivity.
Qed.

(** X8: teardown, and the effect run again.  The cleanup drops the map,
    lowers both flags, leaves the four overlay refs, the container and the
    stamp counter as they are, and is idempotent.  When React then runs
    the initialisation effect again on the freshly mounted component, the
    new view shows what the first one showed: the same two viewport
    commands, tiles and controls, driver and customer markers at the same
    positions with the same popups, the same path points, no user marker,
    both flags up.  Only the identifiers are new. *)
Theorem dispose_then_rerun (c : Controller) (p : Props) :
  let once := view (mount visibleBounds p) in
  let again := snd (rerunInit p once) in
  (mapInstanceRef (dispose c) = None
   /\ mapReady (dispose c) = false
   /\ isInitialized (dispose c) = false
   /\ mapRef (dispose c) = mapRef c
   /\ driverMarkerRef (dispose c) = driverMarkerRef c
   /\ customerMarkerRef (dispose c) = customerMarkerRef c
   /\ userMarkerRef (dispose c) = userMarkerRef c
   /\ pathRef (dispose c) = pathRef c
   /\ lastId (dispose c) = lastId c
   /\ dispose (dispose c) = dispose c)
  /\ (isInitialized again = true /\ mapReady again = true)
  /\ option_map L.viewLog (mapInstanceRef again)
     = option_map L.viewLog (mapInstanceRef once)
  /\ option_map L.tiles (mapInstanceRef again)
     = option_map L.tiles (mapInstanceRef once)
  /\ option_map L.controls (mapInstanceRef again)
     = option_map L.controls (mapInstanceRef once)
  /\ option_map L.latlng (driverMarkerRef again)
     = option_map L.latlng (driverMarkerRef once)
  /\ option_map L.latlng (customerMarkerRef again)
     = option_map L.latlng (customerMarkerRef once)
  /\ option_map L.popup (customerMarkerRef again)
     = option_map L.popup (customerMarkerRef once)
  /\ option_map L.latlngs (pathRef again)
     = option_map L.latlngs (pathRef once)
  /\ userMarkerRef again = None
  /\ option_map L.layers (mapInstanceRef again)
     = option_map (List.map (fun id => id + lastId once))
         (option_map L.layers (mapInstanceRef once)).
Proof.
  cbv zeta. split.
  { unfold dispose. cbn.
    repeat split; now destruct (mapInstanceRef c). }
  rewrite (mount_view p). unfold rerunInit, initialize.
  cbn [mapRef isInitialized mounted userLocation firstRender userMarkerRef
       pathRef lastId driverLocation customerLocation locationHistory
       dispose].
  destruct (1 <? length (history p)) eqn:Hlen; cbv zeta beta iota;
    cbn [snd dispose mapRef isInitialized userMarkerRef pathRef lastId];
    rewrite ?Hlen; cbv zeta beta iota;
    cbn [snd isInitialized mapReady userMarkerRef driverMarkerRef
         customerMarkerRef pathRef mapInstanceRef];
    unfold fitMapToPoints, allPoints; cbn;
    repeat split; reflexivity.
Qed.

Lemma play_path (es : list Event) :
  forall k,
    live (view k) ->
    (2 <= snd (deps k) -> pathRef (view k) <> None) ->
    pathRef (view (play visibleBounds es k)) <> None
    <-> pathRef (view k) <> None
        \/ exists q, In q (Terms.rendersOf es) /\ 2 <= length (history q).
Proof.
  induction es as [ | e es IH]; intros k Hlive Hlong.
  - cbn. split; [ now left | ]. intros [H | [q [[] _]]]. exact H.
  - change (play visibleBounds (e :: es) k)
      with (play visibleBounds es (step visibleBounds k e)).
    destruct e as [p | u].
    + change (Terms.rendersOf (Rerender p :: es))
        with (p :: Terms.rendersOf es).
      cbn [step]. unfold rerender.
      destruct (sameDeps (depsOf p) (deps k)) eqn:Hsame.
      * apply sameDeps_eq in Hsame.
        rewrite IH; cbn [view deps];
          [ | exact Hlive | now rewrite Hsame ].
        split.
        -- intros [H | [q [Hin H]]]; [ now left | right ].
           exists q. split; [ now right | exact H ].
        -- intros [H | [q [[<- | Hin] H]]]; [ now left | | right; now exists q ].
           left. apply Hlong. rewrite <- Hsame. exact H.
      * destruct (applySnapshot_path_step visibleBounds (closure p k) (view k)
                    Hlive) as [Hlive' Hstep].
        cbn [closure locationHistory] in Hstep.
        rewrite IH; cbn [view deps];
          [ | exact Hlive' | intros H; apply Hstep; right; exact H ].
        rewrite Hstep. split.
        -- intros [[H | H] | [q [Hin H]]]; [ now left | right | right ].
           ++ exists p. split; [ now left | exact H ].
           ++ exists q. split; [ now right | exact H ].
        -- intros [H | [q [[<- | Hin] H]]].
           ++ left. now left.
           ++ left. now right.
           ++ right. now exists q.
    + cbn [step]. change (Terms.rendersOf (Located u :: es))
        with (Terms.rendersOf es).
      exact (IH (located u k) Hlive Hlong).
Qed.

(** X18: the path and the renders.  On the component, where a render whose
    dependencies are unchanged runs no update, the path overlay still
    exists exactly when the History had at least 2 points at mount or in
    one of the renders since. *)
Theorem path_exists_iff_some_render_long (p : Props) (es : list Event) :
  pathRef (view (play visibleBounds es (mount visibleBounds p))) <> None
  <-> exists q, In q (p :: Terms.rendersOf es) /\ 2 <= length (history q).
Proof.
  assert (Hfirst : pathRef (view (mount visibleBounds p)) <> None
                   <-> 2 <= length (history p)).
  { rewrite mount_view, <- ltb_1_length. unfold initialize.
    cbn [mapRef isInitialized mounted userLocation firstRender userMarkerRef
         pathRef lastId driverLocation customerLocation locationHistory].
    destruct (1 <? length (history p)); cbv zeta beta iota; cbn [snd pathRef];
      split; intros H; first [ reflexivity | discriminate | congruence ]. }
  assert (Hlive : live (view (mount visibleBounds p))).
  { destruct (mount_asMounted p) as (Hinit & _ & _ & _ & _ & m & later & Hm & _).
    split; [ rewrite Hm; discriminate | exact Hinit ]. }
  rewrite (play_path es _ Hlive); [ | cbn; apply Hfirst ].
  rewrite Hfirst. split.
  - intros [H | [q [Hin H]]].
    + exists p. split; [ now left | exact H ].
    + exists q. split; [ now right | exact H ].
  - intros [q [[<- | Hin] H]]; [ now left | right; now exists q ].
Qed.

End ComponentFacts.

(** ** More on the page: what the history holds and what is rendered *)

Section PageFacts.

Import Page PageView.

Lemma fetch_recorded (r : FetchResult) (now : Date) (st : State) :
  locationHistory (fetchHelloFreshData r now st)
  = locationHistory st ++ recorded (r, now).
Proof.
  unfold recorded.
  destruct r as [message | [ | ] status [message | [[d | ] [c | ]]]]; cbn;
    now rewrite ?app_nil_r.
Qed.

Lemma recorded_of_success (r : FetchResult * Date) :
  successful (fst r) = true ->
  exists e, recorded r = [e] /\ timestamp e = snd r.
Proof.
  destruct r as [r now]. unfold recorded, successful. cbn.
  destruct r as [message | [ | ] status [message | [[d | ] [c | ]]]];
    try discriminate.
  intros _. eexists. split; reflexivity.
Qed.

(** X9: the history is the log of the successful fetches.  After any run of
    fetches the history is the old history followed by one entry per
    response that carried both locations, in the order of the fetches, each
    holding that response's driver position and the time it was recorded;
    every other outcome contributes nothing. *)
Theorem history_is_log_of_successes
    (rs : list (FetchResult * Date)) (st : State) :
  locationHistory (poll rs st) = locationHistory st ++ flat_map recorded rs
  /\ (forall r, In r rs -> recorded r <> [] -> successful (fst r) = true)
  /\ (forall r, successful (fst r) = true ->
        exists e, recorded r = [e] /\ timestamp e = snd r).
Proof.
  split; [ | split ].
  - revert st. induction rs as [ | [r now] rs IH]; intros st; cbn.
    + now rewrite app_nil_r.
    + change (fold_left _ rs ?st') with (poll rs st').
      now rewrite IH, fetch_recorded, <- app_assoc.
  - intros [r now] _. unfold recorded, successful. cbn.
    destruct r as [message | [ | ] status [message | [[d | ] [c | ]]]];
      intros Hrec; first [ reflexivity | now elim Hrec ].
  - exact recorded_of_success.
Qed.

Lemma fetch_inStep (r : FetchResult) (now : Date) (st : State) :
  inStep st -> inStep (fetchHelloFreshData r now st).
Proof.
  intros Hst.
  destruct r as [message | [ | ] status [message | [[d | ] [c | ]]]]; cbn;
    try exact Hst.
  right. do 4 eexists. repeat split; reflexivity.
Qed.

(** X10: the driver shown is the last point of the history.  From the
    initial page state, after any run of fetches, either nothing is known
    (no driver, no customer, empty history) or driver and customer are both
    known and the history handed to the map is non-empty and ends at the
    driver's position, also after later fetches have failed. *)
Theorem driver_is_last_history_point (rs : list (FetchResult * Date)) :
  let st := poll rs initial in
  inStep st
  /\ (forall d, driver st = Some d ->
        customer st <> None
        /\ mapHistory st <> []
        /\ last (mapHistory st) d = d).
Proof.
  cbv zeta.
  assert (Hstep : forall st, inStep st -> inStep (poll rs st)).
  { induction rs as [ | [r now] rs IH]; intros st Hst; [ exact Hst | ].
    cbn. apply IH. now apply fetch_inStep. }
  assert (Hnow : inStep (poll rs initial)).
  { apply Hstep. left. repeat split; reflexivity. }
  split; [ exact Hnow | ].
  intros d Hd.
  destruct Hnow as [(Hnone & _) | (d' & c & older & e & Hd' & Hc & Hh & Hlat & Hlng)];
    [ congruence | ].
  rewrite Hd in Hd'. injection Hd' as <-.
  unfold mapHistory. rewrite Hc, Hh, map_app. cbn.
  split; [ discriminate | ]. split.
  - intros Heq. now apply app_eq_nil in Heq as [_ Heq].
  - rewrite last_last, Hlat, Hlng. now destruct d.
Qed.

(** X11: the history panel is a sliding window.  After a fetch that carried
    both locations the panel shows the new entry on top, followed by the
    first 9 entries it showed before; after any other fetch it shows what it
    showed before. *)
Theorem panel_slides (r : FetchResult) (now : Date) (st : State) :
  (successful r = true ->
   exists e, recorded (r, now) = [e]
     /\ historyPanel (fetchHelloFreshData r now st)
        = e :: firstn 9 (historyPanel st))
  /\ (successful r = false ->
      historyPanel (fetchHelloFreshData r now st) = historyPanel st).
Proof.
  assert (Hpanel : forall st', historyPanel st'
                               = firstn 10 (rev (locationHistory st'))).
  { intros st'. unfold historyPanel, Js.reverse.
    rewrite (slice_last _ 9). unfold Contract.lastPoints.
    now rewrite firstn_rev. }
  rewrite !Hpanel, fetch_recorded. split.
  - intros Hok.
    destruct (recorded_of_success (r, now) Hok) as [e [He _]].
    exists e. split; [ exact He | ]. rewrite He, rev_app_distr.
    change (rev [e] ++ rev (locationHistory st))
      with (e :: rev (locationHistory st)).
    rewrite firstn_cons, firstn_firstn. reflexivity.
  - intros Hfail.
    replace (recorded (r, now)) with (@nil HistoryEntry);
      [ now rewrite app_nil_r | ].
    unfold recorded.
    destruct r as [message | [ | ] status [message | [[d | ] [c | ]]]];
      cbn in Hfail |- *; congruence.
Qed.

Lemma settle_failure (r : FetchResult) (now : Date) (st : State) :
  successful r = false ->
  exists message, settle r now st = failed message st.
Proof.
  destruct r as [m | [ | ] status [m | [[d | ] [c | ]]]]; cbn;
    try discriminate; intros _; eexists; reflexivity.
Qed.

Lemma settle_success (r : FetchResult) (now : Date) (st : State) :
  successful r = true ->
  exists d c,
    settle r now st
    = mkState (Some d) (Some c) (locationHistory st ++ recorded (r, now))
        false (error st).
Proof.
  destruct r as [m | [ | ] status [m | [[d | ] [c | ]]]]; cbn;
    try discriminate; intros _; do 2 eexists; reflexivity.
Qed.

(** X12: the loading flag and the error follow the last step taken, not the
    requests in flight.  Sending a request hides the map and clears the
    error.  Every completion lowers the loading flag, whatever else is
    pending: with two requests out, the first success renders the map while
    the other is still in flight.  A success leaves the error as it finds
    it, so a failure that came back in between keeps the map hidden after a
    later success.  A failure keeps the locations known before and, its
    message being non-empty, puts the error placeholder in place of the
    map.  A request that runs from start to end alone renders the map on
    success, with no error. *)
Theorem refresh_hides_then_shows_map
    (r : FetchResult) (now : Date) (st : State) :
  (showsMap (start st) = false
   /\ placeholder (start st) = "Loading map..."%string
   /\ error (start st) = None)
  /\ isLoading (settle r now st) = false
  /\ (successful r = true ->
      error (settle r now st) = error st
      /\ showsMap (settle r now st) = negb (truthy (error st))
      /\ showsMap (settle r now (start (start st))) = true)
  /\ (successful r = false ->
      exists message,
        error (settle r now st) = Some message
        /\ driver (settle r now st) = driver st
        /\ customer (settle r now st) = customer st
        /\ (message <> EmptyString ->
            showsMap (settle r now st) = false
            /\ placeholder (settle r now st) = "Error loading map"%string
            /\ forall r' now',
                 successful r' = true ->
                 showsMap (settle r' now' (settle r now st)) = false))
  /\ fetchHelloFreshData r now st = settle r now (start st)
  /\ (successful r = true ->
      showsMap (fetchHelloFreshData r now st) = true
      /\ error (fetchHelloFreshData r now st) = None).
Proof.
  assert (Hshown : forall st', successful r = true ->
            showsMap (settle r now st') = negb (truthy (error st'))
            /\ error (settle r now st') = error st').
  { intros st' Hok.
    destruct (settle_success r now st' Hok) as (d & c & ->).
    split; reflexivity. }
  split.
  { unfold showsMap, start. cbn.
    split; [ now destruct (driver st), (customer st) | ].
    split; reflexivity. }
  split; [ now destruct r as [m | [ | ] status [m | [[d | ] [c | ]]]] | ].
  split.
  { intros Hok. destruct (Hshown st Hok) as [Hmap Herr].
    split; [ exact Herr | ]. split; [ exact Hmap | ].
    now rewrite (proj1 (Hshown _ Hok)). }
  split.
  { intros Hfail. destruct (settle_failure r now st Hfail) as [message ->].
    exists message. do 3 (split; [ reflexivity | ]).
    intros Hmsg.
    assert (Htruthy : truthy (Some message) = true)
      by (destruct message; [ congruence | reflexivity ]).
    split; [ unfold showsMap; cbn [driver customer isLoading error failed];
             rewrite Htruthy; now destruct (driver st), (customer st) | ].
    split; [ unfold placeholder; cbn [isLoading error failed];
             now rewrite Htruthy | ].
    intros r' now' Hok'.
    destruct (settle_success r' now' (failed message st) Hok') as (d & c & ->).
    unfold showsMap. cbn [driver customer isLoading error failed].
    now rewrite Htruthy. }
  split; [ reflexivity | ].
  intros Hok. unfold fetchHelloFreshData.
  destruct (Hshown (start st) Hok) as [Hmap Herr]. now rewrite Hmap, Herr.
Qed.

End PageFacts.

(** ** The time helpers *)

Section TimeFacts.

Import TimeUtils.
Local Open Scope Z_scope.

Variable parse : string -> option Z.

Lemma floor_of_negative (x D : Z) :
  0 < D -> 0 < x ->
  let k := Z.abs (- x / D) in
  1 <= k /\ (k - 1) * D < x <= k * D.
Proof.
  intros HD Hx. cbv zeta.
  pose proof (Z.div_mod (- x) D ltac:(lia)) as Hdm.
  pose proof (Z.mod_pos_bound (- x) D HD) as Hmod.
  assert (Hneg : - x / D < 0) by (apply Z.div_lt_upper_bound; lia).
  rewrite Z.abs_neq by lia. nia.
Qed.

(** X13: [getRelativeTime] reports every past instant in days.  For a valid
    date before now, the two less than 2^53 ms apart, it returns
    "K day(s) ago" where K is the elapsed time in days rounded up, so at
    least 1: an instant one millisecond ago is "1 day ago", and the hour
    and minute wordings are never used for the past. *)
Theorem getRelativeTime_past_counts_days
    (isoString : string) (now date : Z) :
  parse isoString = Some date ->
  withinDouble date now ->
  date < now ->
  let k := Z.abs ((date - now) / 86400000) in
  1 <= k
  /\ (k - 1) * 86400000 < now - date <= k * 86400000
  /\ getRelativeTime parse isoString now
     = (show k ++ " day" ++ plural k ++ " ago")%string.
Proof.
  intros Hparse _ Hpast. cbv zeta.
  destruct (floor_of_negative (now - date) 86400000 ltac:(lia) ltac:(lia))
    as [Hk Hbounds].
  replace (- (now - date)) with (date - now) in * by lia.
  split; [ exact Hk | ]. split; [ exact Hbounds | ].
  unfold getRelativeTime. rewrite Hparse. cbv zeta.
  change (1000 * 60 * 60 * 24) with 86400000.
  destruct (Z.ltb_spec (date - now) 0) as [_ | Hge]; [ | lia ].
  destruct (Z.gtb_spec (Z.abs ((date - now) / 86400000)) 0) as [_ | Hle];
    [ reflexivity | lia ].
Qed.

(** X14: [getRelativeTime] picks the largest unit that fits a future
    instant.  For a valid date at or after now, the two less than 2^53 ms
    apart, with D the distance in milliseconds: from one day on it says
    "in N day(s)" with N the whole days; from one hour on, "in N hour(s)" with N from 1 to 23; below one
    hour, "in N minute(s)" with N from 0 to 59, so "in 0 minutes" for less
    than a minute.  The unit takes an "s" unless N is 1. *)
Theorem getRelativeTime_future_units
    (isoString : string) (now date : Z) :
  parse isoString = Some date ->
  withinDouble date now ->
  now <= date ->
  let d := date - now in
  (86400000 <= d ->
   1 <= d / 86400000
   /\ getRelativeTime parse isoString now
      = ("in " ++ show (d / 86400000) ++ " day"
           ++ plural (d / 86400000))%string)
  /\ (3600000 <= d < 86400000 ->
      1 <= d / 3600000 <= 23
      /\ getRelativeTime parse isoString now
         = ("in " ++ show (d / 3600000) ++ " hour"
              ++ plural (d / 3600000))%string)
  /\ (d < 3600000 ->
      0 <= d / 60000 <= 59
      /\ getRelativeTime parse isoString now
         = ("in " ++ show (d / 60000) ++ " minute"
              ++ plural (d / 60000))%string)
  /\ (d < 60000 ->
      getRelativeTime parse isoString now = "in 0 minutes"%string).
Proof.
  intros Hparse _ Hfuture. cbv zeta.
  assert (Hunfold :
    getRelativeTime parse isoString now
    = (if (date - now) / 86400000 >? 0 then
         "in " ++ show ((date - now) / 86400000) ++ " day"
           ++ plural ((date - now) / 86400000)
       else if (date - now) / 3600000 >? 0 then
         "in " ++ show ((date - now) / 3600000) ++ " hour"
           ++ plural ((date - now) / 3600000)
       else
         "in " ++ show ((date - now) / 60000) ++ " minute"
           ++ plural ((date - now) / 60000))%string).
  { unfold getRelativeTime. rewrite Hparse. cbv zeta.
    destruct (Z.ltb_spec (date - now) 0) as [Hlt | _]; [ lia | reflexivity ]. }
  rewrite Hunfold.
  pose proof (Z.div_mod (date - now) 86400000 ltac:(lia)) as Hday.
  pose proof (Z.mod_pos_bound (date - now) 86400000 ltac:(lia)) as Hdaym.
  pose proof (Z.div_mod (date - now) 3600000 ltac:(lia)) as Hhour.
  pose proof (Z.mod_pos_bound (date - now) 3600000 ltac:(lia)) as Hhourm.
  pose proof (Z.div_mod (date - now) 60000 ltac:(lia)) as Hmin.
  pose proof (Z.mod_pos_bound (date - now) 60000 ltac:(lia)) as Hminm.
  split; [ | split; [ | split ] ].
  - intros Hd. assert (Hq : 1 <= (date - now) / 86400000) by lia.
    split; [ exact Hq | ].
    destruct (Z.gtb_spec ((date - now) / 86400000) 0); [ reflexivity | lia ].
  - intros Hd. assert (Hq : 1 <= (date - now) / 3600000 <= 23) by lia.
    split; [ exact Hq | ].
    destruct (Z.gtb_spec ((date - now) / 86400000) 0); [ lia | ].
    destruct (Z.gtb_spec ((date - now) / 3600000) 0); [ reflexivity | lia ].
  - intros Hd. assert (Hq : 0 <= (date - now) / 60000 <= 59) by lia.
    split; [ exact Hq | ].
    destruct (Z.gtb_spec ((date - now) / 86400000) 0); [ lia | ].
    destruct (Z.gtb_spec ((date - now) / 3600000) 0); [ lia | reflexivity ].
  - intros Hd.
    assert (Hq : (date - now) / 60000 = 0) by lia.
    destruct (Z.gtb_spec ((date - now) / 86400000) 0); [ lia | ].
    destruct (Z.gtb_spec ((date - now) / 3600000) 0); [ lia | ].
    rewrite Hq. reflexivity.
Qed.

(** X15: [getTimeStatus] calls an instant present within six minutes of
    now.  The status is present exactly when the date is invalid or lies
    less than 360000 ms from now, past exactly when it is valid and at least
    360000 ms before now, future exactly when it is valid and at least
    360000 ms after; and it agrees with [isTimeInPast], which is true
    exactly for a valid date before now: past implies in the past, future
    implies not. *)
Theorem getTimeStatus_window (isoString : string) (now : Z) :
  (getTimeStatus parse isoString now = present
   <-> parse isoString = None
       \/ exists date, parse isoString = Some date
                       /\ Z.abs (date - now) < 360000)
  /\ (getTimeStatus parse isoString now = past
      <-> exists date, parse isoString = Some date /\ date <= now - 360000)
  /\ (getTimeStatus parse isoString now = future
      <-> exists date, parse isoString = Some date /\ now + 360000 <= date)
  /\ (isTimeInPast parse isoString now = true
      <-> exists date, parse isoString = Some date /\ date < now)
  /\ (getTimeStatus parse isoString now = past ->
      isTimeInPast parse isoString now = true)
  /\ (getTimeStatus parse isoString now = future ->
      isTimeInPast parse isoString now = false).
Proof.
  unfold getTimeStatus, isTimeInPast.
  destruct (parse isoString) as [date | ].
  - cbv zeta.
    pose proof (Z.div_mod (Z.abs (date - now)) 60000 ltac:(lia)) as Hdm.
    pose proof (Z.mod_pos_bound (Z.abs (date - now)) 60000 ltac:(lia)) as Hmod.
    change (1000 * 60) with 60000.
    destruct (Z.leb_spec (Z.abs (date - now) / 60000) 5) as [Hnear | Hfar];
      destruct (Z.ltb_spec date now) as [Hlt | Hge];
      repeat split; intros; try discriminate; try reflexivity;
      repeat match goal with
             | H : _ \/ _ |- _ => destruct H as [H | H]; try discriminate H
             | H : exists _, _ |- _ => destruct H as [? [[= <-] ?]]
             end;
      try (exfalso; lia);
      try (right; exists date; split; [ reflexivity | lia ]);
      try (exists date; split; [ reflexivity | lia ]).
  - repeat split; intros; try discriminate; try reflexivity;
      try (now left);
      repeat match goal with
             | H : exists _, _ |- _ => destruct H as [? [? ?]]; discriminate
             end.
Qed.

End TimeFacts.

(** ** The re-publishing endpoints *)

Section RouteFacts.

Import Routes.
Local Open Scope Z_scope.

Variable nullAccess : string.

(** Split on every outcome of the upstream request the handlers tell apart. *)
Ltac upstream_cases r :=
  destruct r as [message | [ | ] code [message | parsed]];
  try match goal with
      | |- context [Json.driverLocationOf ?d] =>
          let Hfound := fresh "Hfound" in
          let Htruthy := fresh "Htruthy" in
          destruct (Json.driverLocationOf d) as [ | | v] eqn:Hfound;
          [ | | destruct (Json.truthy v) eqn:Htruthy ]
      end.


(** X17: the stream says nothing when the upstream refuses.  A tick whose
    upstream answer has a status outside 200-299 enqueues no event at all,
    neither an update nor an error, although the webhook answers 500 to the
    same outcome.  Every other tick enqueues exactly one event: an update
    carrying the data when the webhook would answer 200, an error when it
    would answer 500.  So a stream emits one event per tick that was not
    refused. *)
Theorem stream_silent_when_refused
    (r : Upstream) (now : Page.Date) (ticks : list (Upstream * Page.Date)) :
  (refused r = true ->
   sendData nullAccess r now = []
   /\ status (webhookPOST nullAccess r now) = 500)
  /\ (refused r = false ->
      exists e,
        sendData nullAccess r now = [e]
        /\ success (data e) = hasDriver r
        /\ event e
           = (if hasDriver r then "hellofresh-update" else "error")%string
        /\ (hasDriver r = true <-> status (webhookPOST nullAccess r now) = 200))
  /\ length (stream nullAccess ticks)
     = length (filter (fun t => negb (refused (fst t))) ticks)
  /\ (length (stream nullAccess ticks) <= length ticks)%nat.
Proof.
  assert (Hone : forall r' now',
            length (sendData nullAccess r' now')
            = if refused r' then 0%nat else 1%nat).
  { intros r' now'. unfold sendData, refused. upstream_cases r'; reflexivity. }
  assert (Hcount : length (stream nullAccess ticks)
                   = length (filter (fun t => negb (refused (fst t))) ticks)).
  { unfold stream. induction ticks as [ | [r' now'] ticks' IH];
      [ reflexivity | ].
    cbn [flat_map filter fst snd]. rewrite length_app, Hone, IH.
    now destruct (refused r'). }
  split; [ | split; [ | split; [ exact Hcount | ] ] ].
  - unfold sendData, webhookPOST, refused.
    upstream_cases r; intros; try discriminate; split; reflexivity.
  - unfold sendData, webhookPOST, refused, hasDriver.
    upstream_cases r; intros; try discriminate; eexists;
      (split; [ reflexivity | ]); cbn [data event success status];
      repeat split; intros; try discriminate; try reflexivity.
  - rewrite Hcount. apply filter_length_le.
Qed.

End RouteFacts.

(** ** The further properties at work on the samples *)

Section MoreScenarios.

Import MapComponent Contract View Samples.

Lemma shouldRefit_depends_on_last_three_witness :
  let k := Component.mount vancouver (Component.propsOf scenarioB) in
  let fresh := Component.closure (Component.propsOf scenarioB) k in
  let stale := Component.closure (Component.propsOf replaced) k in
  length (Component.history (Component.propsOf replaced))
  = length (Component.captured k)
  /\ forallb (fun q => L.contains (vancouver []) (coords q))
       (locationHistory stale) = true
  /\ shouldRefit vancouver stale (Component.view k) = true
  /\ shouldRefit vancouver stale (Component.view k)
     = shouldRefit vancouver fresh (Component.view k).
Proof.
  cbv zeta. split; [ reflexivity | ]. split; [ now vm_compute | ].
  split; [ now vm_compute | ].
  exact (proj2 (shouldRefit_depends_on_last_three vancouver scenarioB
                  scenarioB
                  (Component.view
                     (Component.mount vancouver (Component.propsOf scenarioB))))
           (Component.mount vancouver (Component.propsOf scenarioB))
           (Component.propsOf replaced) (Component.propsOf scenarioB)
           eq_refl eq_refl).
Defined.

Lemma rerender_viewport_policy_witness :
  let k := Component.mount vancouver (Component.propsOf scenarioA) in
  let p := Component.propsOf scenarioB in
  exists m m',
    mapInstanceRef (Component.view k) = Some m
    /\ isInitialized (Component.view k) = true
    /\ Component.depsOf p <> Component.deps k
    /\ mapInstanceRef (Component.view (Component.rerender vancouver p k))
       = Some m'
    /\ L.viewLog m' = L.viewLog m ++ [fitCommand (Component.closure p k)].
Proof.
  cbv zeta.
  assert (Hdiff : Component.depsOf (Component.propsOf scenarioB)
                  <> Component.deps
                       (Component.mount vancouver (Component.propsOf scenarioA))).
  { intros Heq. apply (f_equal snd) in Heq. discriminate Heq. }
  destruct (rerender_viewport_policy vancouver (Component.propsOf scenarioB)
              (Component.mount vancouver (Component.propsOf scenarioA))
              _ eq_refl eq_refl)
    as (_ & Hrun & _).
  destruct (Hrun Hdiff) as (_ & m' & Hm' & Hlog & _).
  eexists. exists m'. split; [ reflexivity | ]. split; [ reflexivity | ].
  split; [ exact Hdiff | ]. split; [ exact Hm' | ].
  rewrite Hlog. f_equal.
Defined.

Lemma applySnapshot_user_overlay_witness :
  let c := snd (initialize scenarioA mounted) in
  exists m,
    mapInstanceRef c = Some m
    /\ isInitialized c = true
    /\ userMarkerRef c = None
    /\ userLocation withUser <> None
    /\ userMarkerRef (snd (applySnapshot vancouver withUser c)) = None.
Proof.
  cbv zeta. eexists. split; [ reflexivity | ]. split; [ reflexivity | ].
  split; [ reflexivity | ]. split; [ discriminate | ].
  apply (proj1 (applySnapshot_user_overlay vancouver withUser
                  (snd (initialize scenarioA mounted)) _ eq_refl eq_refl)).
  reflexivity.
Defined.

Lemma applySnapshot_duplicate_keeps_overlays_witness :
  let c := snd (initialize scenarioA mounted) in
  let once := snd (applySnapshot vancouver scenarioB c) in
  let twice := snd (applySnapshot vancouver scenarioB once) in
  exists m,
    mapInstanceRef c = Some m
    /\ isInitialized c = true
    /\ pathRef once <> None
    /\ pathRef twice = pathRef once
    /\ lastId twice = lastId once.
Proof.
  cbv zeta. eexists. split; [ reflexivity | ]. split; [ reflexivity | ].
  split; [ discriminate | ].
  destruct (applySnapshot_duplicate_keeps_overlays vancouver scenarioB
              (snd (initialize scenarioA mounted)) _ eq_refl eq_refl)
    as (_ & _ & _ & Hpath & Hid & _).
  split; [ exact Hpath | exact Hid ].
Defined.

Lemma overlays_stay_in_step_witness :
  untouched mounted
  /\ coherent (run vancouver [onePointAway; scenarioB; withUser]
                 (snd (initialize scenarioA mounted))).
Proof.
  assert (Hu : untouched mounted).
  { split; [ discriminate | ]. repeat split; reflexivity. }
  split; [ exact Hu | ].
  exact (proj1 (overlays_stay_in_step vancouver scenarioA
                  [onePointAway; scenarioB; withUser] mounted Hu)).
Defined.

Lemma handlers_move_only_the_viewport_witness :
  let c := snd (initialize withUser mounted) in
  exists m,
    mapInstanceRef c = Some m
    /\ sameOverlays c (snd (handleCenterOnDriver scenarioB c))
    /\ option_map L.viewLog
         (mapInstanceRef (snd (handleCenterOnDriver scenarioB c)))
       = Some (L.viewLog m ++ [centreCommand (driverLocation scenarioB)]).
Proof.
  cbv zeta. eexists. split; [ reflexivity | ].
  destruct (handlers_move_only_the_viewport scenarioB
              (snd (initialize withUser mounted)) _ eq_refl)
    as ((_ & Hlog & Hsame) & _).
  split; [ exact Hsame | exact Hlog ].
Defined.


End MoreScenarios.

Section MorePageScenarios.

Import Page PageView Contract Samples.
Local Open Scope Z_scope.

Lemma history_is_log_of_successes_witness :
  let rs := [(delivering, 1000); (driverless, 2000)] in
  In (delivering, 1000) rs
  /\ recorded (delivering, 1000) <> []
  /\ successful delivering = true
  /\ length (locationHistory (poll rs initial)) = 1%nat.
Proof.
  cbv zeta.
  assert (Hin : In (delivering, 1000) [(delivering, 1000); (driverless, 2000)])
    by now left.
  assert (Hrec : recorded (delivering, 1000) <> []) by discriminate.
  split; [ exact Hin | ]. split; [ exact Hrec | ]. split.
  - exact (proj1 (proj2 (history_is_log_of_successes
                           [(delivering, 1000); (driverless, 2000)] initial))
             (delivering, 1000) Hin Hrec).
  - reflexivity.
Defined.

Lemma driver_is_last_history_point_witness :
  let st := poll [(delivering, 1000); (driverless, 2000)] initial in
  let d := MapComponent.mkLocation 49.28 (-123.12) in
  driver st = Some d
  /\ error st <> None
  /\ last (mapHistory st) d = d.
Proof.
  cbv zeta. split; [ reflexivity | ]. split; [ discriminate | ].
  exact (proj2 (proj2 (proj2 (driver_is_last_history_point
                                [(delivering, 1000); (driverless, 2000)])
                         _ eq_refl))).
Defined.

Lemma panel_slides_witness :
  successful delivering = true
  /\ exists e,
       recorded (delivering, 3000) = [e]
       /\ historyPanel (fetchHelloFreshData delivering 3000
                          (poll [(delivering, 1000)] initial))
          = e :: firstn 9 (historyPanel (poll [(delivering, 1000)] initial)).
Proof.
  split; [ reflexivity | ].
  exact (proj1 (panel_slides delivering 3000 (poll [(delivering, 1000)] initial))
           eq_refl).
Defined.

Lemma refresh_hides_then_shows_map_witness :
  let pending := start (start (poll [(delivering, 1000)] initial)) in
  successful driverless = false
  /\ successful delivering = true
  /\ showsMap (settle delivering 2000 pending) = true
  /\ showsMap (settle delivering 3000 (settle driverless 2000 pending))
     = false.
Proof.
  cbv zeta. split; [ reflexivity | ]. split; [ reflexivity | ].
  split; [ reflexivity | ].
  destruct (proj1 (proj2 (proj2 (proj2
              (refresh_hides_then_shows_map driverless 2000
                 (start (start (poll [(delivering, 1000)] initial)))))))
              eq_refl)
    as (message & Herr & _ & _ & Hhidden).
  assert (Hmsg : message <> EmptyString).
  { intros ->. discriminate Herr. }
  exact (proj2 (proj2 (Hhidden Hmsg)) delivering 3000 eq_refl).
Defined.

End MorePageScenarios.

Section MoreTimeAndRouteScenarios.

Import TimeUtils Routes Samples.
Local Open Scope Z_scope.

Lemma getRelativeTime_past_counts_days_witness :
  sampleParse newYear = Some 1735689600000
  /\ withinDouble 1735689600000 1735689600001
  /\ 1735689600000 < 1735689600001
  /\ getRelativeTime sampleParse newYear 1735689600001 = "1 day ago"%string.
Proof.
  split; [ reflexivity | ]. split; [ unfold withinDouble; lia | ].
  split; [ lia | ].
  exact (proj2 (proj2 (getRelativeTime_past_counts_days sampleParse newYear
                         1735689600001 1735689600000 eq_refl
                         ltac:(unfold withinDouble; lia) ltac:(lia)))).
Defined.

Lemma getRelativeTime_future_units_witness :
  sampleParse justAfterNewYear = Some 1735689600001
  /\ withinDouble 1735689600001 1735689600000
  /\ 1735689600000 <= 1735689600001
  /\ getRelativeTime sampleParse justAfterNewYear 1735689600000
     = "in 0 minutes"%string.
Proof.
  split; [ reflexivity | ]. split; [ unfold withinDouble; lia | ].
  split; [ lia | ].
  apply (proj2 (proj2 (proj2 (getRelativeTime_future_units sampleParse
                                justAfterNewYear 1735689600000 1735689600001
                                eq_refl ltac:(unfold withinDouble; lia)
                                ltac:(lia))))).
  lia.
Defined.

Lemma getTimeStatus_window_witness :
  getTimeStatus sampleParse newYear 1735689960000 = past
  /\ getTimeStatus sampleParse newYear 1735689959999 = present
  /\ isTimeInPast sampleParse newYear 1735689960000 = true.
Proof.
  split; [ reflexivity | ]. split; [ reflexivity | ].
  apply (proj1 (proj2 (proj2 (proj2 (proj2
           (getTimeStatus_window sampleParse newYear 1735689960000)))))).
  reflexivity.
Defined.


Lemma stream_silent_when_refused_witness :
  refused unavailable = true
  /\ sendData "null" unavailable 0 = []
  /\ status (webhookPOST "null" unavailable 0) = 500.
Proof.
  split; [ reflexivity | ].
  exact (proj1 (stream_silent_when_refused "null" unavailable 0 [])
           eq_refl).
Defined.

End MoreTimeAndRouteScenarios.
